(** * Flow2API userscript: page routing, login automation and token sync

    A shallow embedding of [tampermonkey.js].  The file holds two releases
    of the userscript: release 1.2 (token sync only) and release 1.5 (token
    sync, interstitial sign-in page, account chooser and humanized password
    entry).  The script body is written in a small free monad of browser
    effects; an event loop interprets it against a page (DOM, timers,
    userscript storage) and an adversarial world (random draws, page
    reactions, JSON parser, store and network replies). *)

From Stdlib Require Import List ZArith NArith QArith Qround Bool Lia Lqa Arith.
From Stdlib Require Import String Ascii.
Import ListNotations.

Close Scope Q_scope.
Open Scope list_scope.

Set Implicit Arguments.
Set Warnings "-register-all".

(** ** JavaScript strings *)

(** A JavaScript string is a sequence of UTF-16 code units; [text[i]] is one
    code unit and [+] is concatenation. *)
Definition jsstring : Type := list N.

(** String literals of the source that are plain ASCII. *)
Definition lit (s : string) : jsstring :=
  map N_of_ascii (list_ascii_of_string s).

(** [s.startsWith(pat)], the prefix test used by [includes]. *)
Fixpoint startsWith (s pat : jsstring) : bool :=
  match pat, s with
  | [], _ => true
  | _ :: _, [] => false
  | p :: pat', c :: s' => N.eqb c p && startsWith s' pat'
  end.

(** [String.prototype.includes]: [pat] occurs somewhere in [s]. *)
Fixpoint includes (s pat : jsstring) : bool :=
  startsWith s pat ||
  match s with
  | [] => false
  | _ :: s' => includes s' pat
  end.

(** Truthiness of a string: only the empty string is falsy. *)
Definition nonempty (s : jsstring) : bool :=
  match s with [] => false | _ :: _ => true end.

(** ** Values obtained from [JSON.parse] *)

Inductive json : Type :=
| JNull
| JBool (b : bool)
| JNum (q : Q)
| JStr (s : jsstring)
| JArr (items : list json)
| JObj (fields : list (jsstring * json)).

(** The result of a property read: [None] is [undefined]. *)
Definition jsvalue : Type := option json.

Definition jsstring_eqb (a b : jsstring) : bool :=
  if list_eq_dec N.eq_dec a b then true else false.

(** Own property of a parsed object; a repeated key keeps its last value. *)
Fixpoint lookup (fields : list (jsstring * json)) (key : jsstring) : jsvalue :=
  match fields with
  | [] => None
  | (k, v) :: rest =>
      match lookup rest key with
      | Some v' => Some v'
      | None => if jsstring_eqb k key then Some v else None
      end
  end.

(** [v.key] for the keys the script reads ([success], [data], [email],
    [action]).  [None] is a thrown [TypeError] (read on [null] or
    [undefined]); primitives and arrays have no such property. *)
Definition get_prop (v : jsvalue) (key : jsstring) : option jsvalue :=
  match v with
  | None => None
  | Some JNull => None
  | Some (JObj fields) => Some (lookup fields key)
  | Some _ => Some None
  end.

Definition truthy (v : jsvalue) : bool :=
  match v with
  | None => false
  | Some JNull => false
  | Some (JBool b) => b
  | Some (JNum q) => negb (Qeq_bool q 0)
  | Some (JStr s) => nonempty s
  | Some (JArr _) => true
  | Some (JObj _) => true
  end.

(** ** The page *)

Definition elem : Type := nat.
Definition handle : Type := nat.

(** The CSS selectors the script probes with. *)
Inductive selector : Type :=
| SEL_form_submit      (* form button[type=submit]           line 171 *)
| SEL_button_button    (* button.button                      line 172 *)
| SEL_account_item     (* ul li:first-child div[role=link]   line 197 *)
| SEL_Passwd           (* input[name=Passwd]                 line 205 *)
| SEL_passwordNext     (* #passwordNext                      line 206 *)
| SEL_button.          (* button                             line 234 *)

(** What the script can observe of the document. *)
Record Dom : Type := {
  querySelector : selector -> option elem;          (* document.querySelector *)
  querySelectorOf : elem -> selector -> option elem; (* element.querySelector *)
  value : elem -> jsstring;                         (* element.value *)
  offsetParent : elem -> option elem                (* element.offsetParent *)
}.

(** The native value setter of [HTMLInputElement.prototype]. *)
Definition set_value (d : Dom) (e : elem) (v : jsstring) : Dom :=
  {| querySelector := querySelector d;
     querySelectorOf := querySelectorOf d;
     value := fun e' => if Nat.eqb e' e then v else value d e';
     offsetParent := offsetParent d |}.

Inductive event_type : Type := EV_input | EV_change.

(** [new Event(type, { bubbles })]. *)
Record Event : Type := { ev_type : event_type; bubbles : bool }.

Record cookie : Type := { cookie_name : jsstring; cookie_value : jsstring }.

Record request : Type := {
  req_method : jsstring;
  req_url : jsstring;
  req_headers : list (jsstring * jsstring);
  req_data : json                          (* the object given to JSON.stringify *)
}.

Record response : Type := { status : Z; responseText : jsstring }.

Inductive level : Type := LOG | WARN | ERROR.

(** Console messages, by the line that prints them. *)
Inductive message : Type :=
| M_token_found                               (* lines 32, 303 *)
| M_sync_ok_12 (email action : jsvalue)       (* line 47 *)
| M_sync_ok (email : jsvalue)                 (* line 317 *)
| M_server_error (data : json)                (* line 49 *)
| M_parse_failed                              (* line 52 *)
| M_http_failed (st : Z) (text : jsstring)    (* line 55 *)
| M_network_error (err : jsstring)            (* line 59 *)
| M_cookie_error (err : jsstring)             (* lines 69, 291 *)
| M_no_session_token                          (* lines 77, 297 *)
| M_script_loaded                             (* lines 85, 276 *)
| M_reload_countdown (minutes : Q)            (* lines 90, 281 *)
| M_reloading                                 (* lines 93, 284 *)
| M_auth_page_detected                        (* line 165 *)
| M_signin_button_found                       (* line 175 *)
| M_login_page_detected                       (* line 185 *)
| M_account_list_found                        (* line 199 *)
| M_no_password                               (* line 214 *)
| M_typing_prepare                            (* line 220 *)
| M_typing_done.                              (* line 230 *)

(** Everything the script does that the page, the user or the network can
    see, in the order it happens. *)
Inductive action : Type :=
| A_query (sel : selector)
| A_query_of (e : elem) (sel : selector)
| A_console (lvl : level) (m : message)
| A_click (e : elem)
| A_focus (e : elem)
| A_set_value (e : elem) (v : jsstring)
| A_dispatch (e : elem) (ev : Event)
| A_sleep (ms : Q)
| A_set_timeout (ms : Q)
| A_set_interval (h : handle) (ms : Q)
| A_clear_interval (h : handle)
| A_cookie_list (name : jsstring)
| A_xhr (req : request)
| A_reload.

(** ** Script programs *)

(** Synchronous browser and userscript-manager calls, indexed by the type of
    their result. *)
Inductive eff : Type -> Type :=
| DocQuerySelector (sel : selector) : eff (option elem)
| ElemQuerySelector (e : elem) (sel : selector) : eff (option elem)
| GetValue (e : elem) : eff jsstring
| GetOffsetParent (e : elem) : eff (option elem)
| GM_getValue : eff jsstring       (* GM_getValue(GOOGLE_PASSWORD, empty) *)
| MathRandom : eff Q
| GetIsTyping : eff bool
| SetIsTyping (b : bool) : eff unit
| Console (lvl : level) (m : message) : eff unit
| Click (e : elem) : eff unit
| Focus (e : elem) : eff unit
| NativeSetValue (e : elem) (v : jsstring) : eff unit
| DispatchEvent (e : elem) (ev : Event) : eff unit
| ClearInterval (h : handle) : eff unit
| JSON_parse (text : jsstring) : eff (option json)
| LocationReload : eff unit.

(** A function body.  [Await] is [await sleep(ms)]: the rest of the async
    function resumes from a one-shot timer.  The calls that take callbacks
    keep them as programs. *)
Inductive prog : Type :=
| Return
| Vis (X : Type) (e : eff X) (k : X -> prog)
| Await (ms : Q) (k : prog)
| SetTimeout (cb : prog) (ms : Q) (k : prog)
| SetInterval (cb : handle -> prog) (ms : Q) (k : handle -> prog)
| GM_cookie_list (name : jsstring)
    (cb : option (list cookie) -> option jsstring -> prog) (k : prog)
| GM_xmlhttpRequest (req : request) (onload : option (response -> prog))
    (onerror : option (jsstring -> prog)) (k : prog).

(** [p] followed by [q]: an awaited call of an async function, or a plain
    call of a function whose body is [p]. *)
Fixpoint seq (p q : prog) : prog :=
  match p with
  | Return => q
  | Vis e k => Vis e (fun x => seq (k x) q)
  | Await ms k => Await ms (seq k q)
  | SetTimeout cb ms k => SetTimeout cb ms (seq k q)
  | SetInterval cb ms k => SetInterval cb ms (fun h => seq (k h) q)
  | GM_cookie_list name cb k => GM_cookie_list name cb (seq k q)
  | GM_xmlhttpRequest req onload onerror k =>
      GM_xmlhttpRequest req onload onerror (seq k q)
  end.

Declare Scope js_scope.
Delimit Scope js_scope with js.
Bind Scope js_scope with prog.

Notation "x <- e ;; k" := (Vis e (fun x => k))
  (at level 100, e at next level, right associativity) : js_scope.
Notation "e ;; k" := (Vis e (fun _ => k))
  (at level 100, right associativity) : js_scope.
Notation "'await_sleep' ms ;; k" := (Await ms k)
  (at level 100, ms at level 9, right associativity) : js_scope.
Notation "'call' p ;; k" := (seq p k)
  (at level 100, p at level 9, right associativity) : js_scope.
Notation "'setTimeout' cb ms ;; k" := (SetTimeout cb ms k)
  (at level 100, cb at level 9, ms at level 9, right associativity) : js_scope.

Open Scope js_scope.

(** ** Page lifetime state and the world around the script *)

(** What is waiting in the browser's task queues for this page. *)
Inductive pending : Type :=
| P_timeout (cb : prog) (ms : Q)                 (* setTimeout(cb, ms) *)
| P_interval (h : handle) (cb : prog) (ms : Q)   (* h = setInterval(cb, ms) *)
| P_resume (k : prog) (ms : Q)                   (* rest of an async call after await sleep(ms) *)
| P_cookie (name : jsstring)
    (cb : option (list cookie) -> option jsstring -> prog)
| P_xhr (req : request) (onload : option (response -> prog))
    (onerror : option (jsstring -> prog)).

Record State : Type := {
  isTyping : bool;                 (* let isTyping = false, line 191 *)
  dom : Dom;
  gm_password : option jsstring;   (* userscript storage, key GOOGLE_PASSWORD *)
  queue : list pending;
  next_handle : handle;
  draws : nat;                     (* calls of Math.random so far *)
  trace : list action
}.

(** What the script does not control: the random number generator (a draw
    is a rational in [0, 1)), the page's own code (how the document changes
    when the page sees a click, a focus, a dispatched event, or while the
    script sleeps), and the built-in JSON parser ([None] when it throws). *)
Record World : Type := {
  random : nat -> Q;
  random_unit : forall n, (0 <= random n)%Q /\ (random n < 1)%Q;
  react : list action -> Dom -> Dom;
  parse : jsstring -> option json
}.

Definition set_isTyping (b : bool) (s : State) : State :=
  {| isTyping := b; dom := dom s; gm_password := gm_password s;
     queue := queue s; next_handle := next_handle s; draws := draws s;
     trace := trace s |}.

Definition set_dom (d : Dom) (s : State) : State :=
  {| isTyping := isTyping s; dom := d; gm_password := gm_password s;
     queue := queue s; next_handle := next_handle s; draws := draws s;
     trace := trace s |}.

Definition set_gm_password (p : option jsstring) (s : State) : State :=
  {| isTyping := isTyping s; dom := dom s; gm_password := p;
     queue := queue s; next_handle := next_handle s; draws := draws s;
     trace := trace s |}.

Definition set_queue (q : list pending) (s : State) : State :=
  {| isTyping := isTyping s; dom := dom s; gm_password := gm_password s;
     queue := q; next_handle := next_handle s; draws := draws s;
     trace := trace s |}.

Definition fresh_handle (s : State) : State :=
  {| isTyping := isTyping s; dom := dom s; gm_password := gm_password s;
     queue := queue s; next_handle := S (next_handle s); draws := draws s;
     trace := trace s |}.

Definition drawn (s : State) : State :=
  {| isTyping := isTyping s; dom := dom s; gm_password := gm_password s;
     queue := queue s; next_handle := next_handle s; draws := S (draws s);
     trace := trace s |}.

(** Record an action. *)
Definition emit (a : action) (s : State) : State :=
  {| isTyping := isTyping s; dom := dom s; gm_password := gm_password s;
     queue := queue s; next_handle := next_handle s; draws := draws s;
     trace := trace s ++ [a] |}.

(** Record an action the page can respond to, and let it respond. *)
Definition interact (w : World) (a : action) (s : State) : State :=
  let s' := emit a s in set_dom (react w (trace s') (dom s')) s'.

Definition enqueue (p : pending) (s : State) : State :=
  set_queue (queue s ++ [p]) s.

Definition is_interval (h : handle) (p : pending) : bool :=
  match p with
  | P_interval h' _ _ => Nat.eqb h' h
  | _ => false
  end.

Definition cancel (h : handle) (s : State) : State :=
  set_queue (filter (fun p => negb (is_interval h p)) (queue s)) s.

(** One synchronous call. *)
Definition perform (w : World) (X : Type) (e : eff X) (s : State) : X * State :=
  match e in eff X return X * State with
  | DocQuerySelector sel => (querySelector (dom s) sel, emit (A_query sel) s)
  | ElemQuerySelector e sel =>
      (querySelectorOf (dom s) e sel, emit (A_query_of e sel) s)
  | GetValue e => (value (dom s) e, s)
  | GetOffsetParent e => (offsetParent (dom s) e, s)
  | GM_getValue =>
      (match gm_password s with Some p => p | None => [] end, s)
  | MathRandom => (random w (draws s), drawn s)
  | GetIsTyping => (isTyping s, s)
  | SetIsTyping b => (tt, set_isTyping b s)
  | Console lvl m => (tt, emit (A_console lvl m) s)
  | Click e => (tt, interact w (A_click e) s)
  | Focus e => (tt, interact w (A_focus e) s)
  | NativeSetValue e v =>
      (tt, emit (A_set_value e v) (set_dom (set_value (dom s) e v) s))
  | DispatchEvent e ev => (tt, interact w (A_dispatch e ev) s)
  | ClearInterval h => (tt, emit (A_clear_interval h) (cancel h s))
  | JSON_parse text => (parse w text, s)
  | LocationReload => (tt, emit A_reload s)
  end.

(** Run a task to completion: up to its end, or up to the first [await],
    where the rest of the function is parked on a one-shot timer. *)
Fixpoint run_task (w : World) (p : prog) (s : State) : State :=
  match p with
  | Return => s
  | Vis e k => let (x, s') := perform w e s in run_task w (k x) s'
  | Await ms k => enqueue (P_resume k ms) (emit (A_sleep ms) s)
  | SetTimeout cb ms k =>
      run_task w k (enqueue (P_timeout cb ms) (emit (A_set_timeout ms) s))
  | SetInterval cb ms k =>
      let h := next_handle s in
      run_task w (k h)
        (enqueue (P_interval h (cb h) ms)
           (emit (A_set_interval h ms) (fresh_handle s)))
  | GM_cookie_list name cb k =>
      run_task w k (enqueue (P_cookie name cb) (emit (A_cookie_list name) s))
  | GM_xmlhttpRequest req onload onerror k =>
      run_task w k (enqueue (P_xhr req onload onerror) (emit (A_xhr req) s))
  end.

(** An async function followed through its awaits: each sleep elapses (the
    page does what it likes meanwhile) and the function goes on. *)
Fixpoint run_through (w : World) (p : prog) (s : State) : State :=
  match p with
  | Return => s
  | Vis e k => let (x, s') := perform w e s in run_through w (k x) s'
  | Await ms k => run_through w k (interact w (A_sleep ms) s)
  | SetTimeout cb ms k =>
      run_through w k (enqueue (P_timeout cb ms) (emit (A_set_timeout ms) s))
  | SetInterval cb ms k =>
      let h := next_handle s in
      run_through w (k h)
        (enqueue (P_interval h (cb h) ms)
           (emit (A_set_interval h ms) (fresh_handle s)))
  | GM_cookie_list name cb k =>
      run_through w k
        (enqueue (P_cookie name cb) (emit (A_cookie_list name) s))
  | GM_xmlhttpRequest req onload onerror k =>
      run_through w k
        (enqueue (P_xhr req onload onerror) (emit (A_xhr req) s))
  end.

(** What the cookie store or the network answers to a waiting request. *)
Inductive reply : Type :=
| R_timer
| R_cookies (cookies : option (list cookie)) (error : option jsstring)
| R_load (r : response)
| R_error (err : jsstring).

Fixpoint remove_nth (A : Type) (i : nat) (l : list A) : list A :=
  match i, l with
  | _, [] => []
  | O, _ :: l' => l'
  | S i', x :: l' => x :: remove_nth i' l'
  end.

Definition dequeue (i : nat) (s : State) : State :=
  set_queue (remove_nth i (queue s)) s.

(** The event loop takes the [i]-th waiting entry and runs its task.  A
    one-shot entry leaves the queue; an interval stays until cleared. *)
Definition fire (w : World) (i : nat) (r : reply) (s : State) : option State :=
  match nth_error (queue s) i, r with
  | Some (P_timeout cb _), R_timer => Some (run_task w cb (dequeue i s))
  | Some (P_interval _ cb _), R_timer => Some (run_task w cb s)
  | Some (P_resume k _), R_timer => Some (run_task w k (dequeue i s))
  | Some (P_cookie _ cb), R_cookies cookies error =>
      Some (run_task w (cb cookies error) (dequeue i s))
  | Some (P_xhr _ onload _), R_load resp =>
      Some (run_task w
              (match onload with Some f => f resp | None => Return end)
              (dequeue i s))
  | Some (P_xhr _ _ onerror), R_error err =>
      Some (run_task w
              (match onerror with Some f => f err | None => Return end)
              (dequeue i s))
  | _, _ => None
  end.

(** The entry parked last is an async call asleep: the page has its turn
    while the sleep lasts, then the timer fires and the call goes on. *)
Definition resume_last (w : World) (s : State) : option State :=
  match rev (queue s) with
  | P_resume k _ :: _ =>
      let s0 := set_queue (removelast (queue s)) s in
      Some (run_task w k (set_dom (react w (trace s0) (dom s0)) s0))
  | _ => None
  end.

(** [fuel] such turns of the event loop. *)
Fixpoint drive (w : World) (fuel : nat) (s : State) : State :=
  match fuel with
  | O => s
  | S fuel' =>
      match resume_last w s with
      | Some s' => drive w fuel' s'
      | None => s
      end
  end.

(** A schedule: which entries the event loop takes, with their answers. *)
Fixpoint fire_all (w : World) (steps : list (nat * reply)) (s : State)
    : option State :=
  match steps with
  | [] => Some s
  | (i, r) :: rest =>
      match fire w i r s with
      | Some s' => fire_all w rest s'
      | None => None
      end
  end.

(** The actions added between two states of one run. *)
Definition emitted (s s' : State) : list action :=
  skipn (List.length (trace s)) (trace s').

(** ** The script *)

(** [CONFIG], the same in both releases (lines 17-27 and 117-126). *)
Module CONFIG.
Definition API_BASE_URL : jsstring := lit "http://localhost:8000".
Definition AUTH_TOKEN : jsstring := lit "han1234".
Definition RELOAD_INTERVAL : Z := 3600 * 1000.
End CONFIG.

Definition SESSION_COOKIE : jsstring := lit "__Secure-next-auth.session-token".

(** The request of [sendTokenToServer], the same in both releases. *)
Definition sync_request (st : jsstring) : request :=
  {| req_method := lit "POST";
     req_url := CONFIG.API_BASE_URL ++ lit "/api/tokens/sync";
     req_headers :=
       [ (lit "Content-Type", lit "application/json");
         (lit "Authorization", lit "Bearer " ++ CONFIG.AUTH_TOKEN) ];
     req_data := JObj [ (lit "st", JStr st) ] |}.

(** [if (error)]: the store reported an error. *)
Definition reported (error : option jsstring) : option jsstring :=
  match error with
  | Some e => if nonempty e then Some e else None
  | None => None
  end.

(** Release 1.2, lines 1-97. *)
Module V12.

(** [onload], lines 42-57. *)
Definition onload (resp : response) : prog :=
  if (status resp =? 200)%Z then
    parsed <- JSON_parse (responseText resp) ;;
    match parsed with
    | None => Console ERROR M_parse_failed ;; Return
    | Some data =>
        match get_prop (Some data) (lit "success") with
        | None => Console ERROR M_parse_failed ;; Return
        | Some success =>
            if truthy success then
              match get_prop (Some data) (lit "data") with
              | None => Console ERROR M_parse_failed ;; Return
              | Some inner =>
                  match get_prop inner (lit "email"),
                        get_prop inner (lit "action") with
                  | Some email, Some act =>
                      Console LOG (M_sync_ok_12 email act) ;; Return
                  | _, _ => Console ERROR M_parse_failed ;; Return
                  end
              end
            else Console ERROR (M_server_error data) ;; Return
        end
    end
  else Console ERROR (M_http_failed (status resp) (responseText resp)) ;;
       Return.

(** [onerror], lines 58-60. *)
Definition onerror (err : jsstring) : prog :=
  Console ERROR (M_network_error err) ;; Return.

(** Lines 31-62. *)
Definition sendTokenToServer (st : jsstring) : prog :=
  Console LOG M_token_found ;;
  GM_xmlhttpRequest (sync_request st) (Some onload) (Some onerror) Return.

(** The callback given to [GM_cookie.list], lines 67-79. *)
Definition syncToken_callback
    (cookies : option (list cookie)) (error : option jsstring) : prog :=
  match reported error with
  | Some e => Console ERROR (M_cookie_error e) ;; Return
  | None =>
      match cookies with
      | Some (c :: _) =>
          let st := cookie_value c in
          call (sendTokenToServer st) ;; Return
      | _ => Console LOG M_no_session_token ;; Return
      end
  end.

(** Lines 65-80. *)
Definition syncToken : prog :=
  GM_cookie_list SESSION_COOKIE syncToken_callback Return.

(** The script body, lines 84-95. *)
Definition main : prog :=
  Console LOG M_script_loaded ;;
  setTimeout syncToken 3000%Q ;;
  let minutes := (inject_Z CONFIG.RELOAD_INTERVAL / 1000 / 60)%Q in
  Console LOG (M_reload_countdown minutes) ;;
  setTimeout (Console LOG M_reloading ;; LocationReload ;; Return)
             (inject_Z CONFIG.RELOAD_INTERVAL) ;;
  Return.

End V12.

(** Release 1.5, lines 97-325. *)
Module V15.

Definition input_event : Event := {| ev_type := EV_input; bubbles := true |}.
Definition change_event : Event := {| ev_type := EV_change; bubbles := true |}.

(** The [for] loop of [typeStringSimulate], lines 248-263, over the code
    units of [text] that are still to be typed. *)
Fixpoint typeChars (element : elem) (text : jsstring) : prog :=
  match text with
  | [] => Return
  | char :: rest =>
      currentVal <- GetValue element ;;
      r <- MathRandom ;;
      let delay := (Qfloor (r * 100) + 50)%Z in
      await_sleep (inject_Z delay) ;;
      let nextVal := currentVal ++ [char] in
      NativeSetValue element nextVal ;;
      DispatchEvent element input_event ;;
      typeChars element rest
  end.

(** Lines 244-267. *)
Definition typeStringSimulate (element : elem) (text : jsstring) : prog :=
  call (typeChars element text) ;;
  DispatchEvent element change_event ;;
  Return.

(** The callback of line 238. *)
Definition unlock : prog := SetIsTyping false ;; Return.

(** The password entry of [tryAttemptLogin] once the lock is taken,
    lines 220-238. *)
Definition enterPassword
    (passwordInput nextButton : elem) (savedPassword : jsstring) : prog :=
  Console LOG M_typing_prepare ;;
  Focus passwordInput ;;
  await_sleep 500%Q ;;
  call (typeStringSimulate passwordInput savedPassword) ;;
  Console LOG M_typing_done ;;
  r <- MathRandom ;;
  await_sleep (800 + r * 500)%Q ;;
  nested <- ElemQuerySelector nextButton SEL_button ;;
  let btn := match nested with Some b => b | None => nextButton end in
  Click btn ;;
  setTimeout unlock 5000%Q ;;
  Return.

(** Lines 193-241. *)
Definition tryAttemptLogin : prog :=
  locked <- GetIsTyping ;;
  if locked then Return else
  accountItem <- DocQuerySelector SEL_account_item ;;
  match accountItem with
  | Some item =>
      Console LOG M_account_list_found ;;
      Click item ;;
      Return
  | None =>
      passwordInput <- DocQuerySelector SEL_Passwd ;;
      nextButton <- DocQuerySelector SEL_passwordNext ;;
      match passwordInput, nextButton with
      | Some input, Some next =>
          parent <- GetOffsetParent input ;;
          match parent with
          | None => Return
          | Some _ =>
              current <- GetValue input ;;
              if nonempty current then Return else
              savedPassword <- GM_getValue ;;
              if negb (nonempty savedPassword) then
                Console WARN M_no_password ;;
                Return
              else
                SetIsTyping true ;;
                enterPassword input next savedPassword
          end
      | _, _ => Return
      end
  end.

(** Lines 184-188. *)
Definition handleAccountsGoogle : prog :=
  Console LOG M_login_page_detected ;;
  SetInterval (fun _ => tryAttemptLogin) 1500%Q (fun _ => Return).

(** The interval callback of [handleLabsAuthPage], lines 167-179. *)
Definition checkBtn_tick (checkBtn : handle) : prog :=
  let found (btn : elem) : prog :=
    Console LOG M_signin_button_found ;;
    ClearInterval checkBtn ;;
    Click btn ;;
    Return in
  primary <- DocQuerySelector SEL_form_submit ;;
  match primary with
  | Some btn => found btn
  | None =>
      secondary <- DocQuerySelector SEL_button_button ;;
      match secondary with
      | Some btn => found btn
      | None => Return
      end
  end.

(** Lines 164-180. *)
Definition handleLabsAuthPage : prog :=
  Console LOG M_auth_page_detected ;;
  SetInterval checkBtn_tick 1000%Q (fun _ => Return).

(** [onload], lines 312-321: a failure of any kind is dropped. *)
Definition onload (resp : response) : prog :=
  if (status resp =? 200)%Z then
    parsed <- JSON_parse (responseText resp) ;;
    match parsed with
    | None => Return
    | Some data =>
        match get_prop (Some data) (lit "success") with
        | None => Return
        | Some success =>
            if truthy success then
              match get_prop (Some data) (lit "data") with
              | None => Return
              | Some inner =>
                  match get_prop inner (lit "email") with
                  | Some email => Console LOG (M_sync_ok email) ;; Return
                  | None => Return
                  end
              end
            else Return
        end
    end
  else Return.

(** Lines 302-323; no [onerror] is given. *)
Definition sendTokenToServer (st : jsstring) : prog :=
  Console LOG M_token_found ;;
  GM_xmlhttpRequest (sync_request st) (Some onload) None Return.

(** The callback given to [GM_cookie.list], lines 290-299. *)
Definition syncToken_callback
    (cookies : option (list cookie)) (error : option jsstring) : prog :=
  match reported error with
  | Some e => Console ERROR (M_cookie_error e) ;; Return
  | None =>
      match cookies with
      | Some (c :: _) =>
          let st := cookie_value c in
          call (sendTokenToServer st) ;; Return
      | _ => Console LOG M_no_session_token ;; Return
      end
  end.

(** Lines 289-300. *)
Definition syncToken : prog :=
  GM_cookie_list SESSION_COOKIE syncToken_callback Return.

(** Lines 275-287. *)
Definition handleLabsGoogle : prog :=
  Console LOG M_script_loaded ;;
  setTimeout syncToken 3000%Q ;;
  let minutes := (inject_Z CONFIG.RELOAD_INTERVAL / 1000 / 60)%Q in
  Console LOG (M_reload_countdown minutes) ;;
  setTimeout (Console LOG M_reloading ;; LocationReload ;; Return)
             (inject_Z CONFIG.RELOAD_INTERVAL) ;;
  Return.

(** The route dispatch at the top of the script, lines 148-160. *)
Definition main (currentHost currentPath : jsstring) : prog :=
  if includes currentHost (lit "labs.google") then
    if includes currentPath (lit "/auth/signin") then handleLabsAuthPage
    else handleLabsGoogle
  else if includes currentHost (lit "accounts.google.com") then
    handleAccountsGoogle
  else Return.

(** The hosts the header lets the script run on, lines 103-104:
    [https://labs.google/*] and [https://accounts.google.com/*]. *)
Definition matched (host : jsstring) : bool :=
  jsstring_eqb host (lit "labs.google") ||
  jsstring_eqb host (lit "accounts.google.com").

(** The menu command that stores the password, lines 130-137; [answer]
    is what [prompt] returned ([None] when the user cancelled). *)
Definition menu_set_password (answer : option jsstring) (s : State) : State :=
  match answer with
  | Some newPwd => set_gm_password (Some newPwd) s
  | None => s
  end.

(** The menu command that clears the password, lines 140-145. *)
Definition menu_clear_password (confirmed : bool) (s : State) : State :=
  if confirmed then set_gm_password (Some []) s else s.

End V15.

(** ** One page lifetime *)

(** A freshly loaded page: the lock is free and nothing is scheduled.  The
    stored password survives from earlier pages. *)
Definition init (d : Dom) (stored : option jsstring) : State :=
  {| isTyping := false; dom := d; gm_password := stored; queue := [];
     next_handle := 0; draws := 0; trace := [] |}.

(** The script body has run on the page at [host], [path]. *)
Definition boot (w : World) (host path : jsstring)
    (d : Dom) (stored : option jsstring) : State :=
  run_task w (V15.main host path) (init d stored).

(** What can happen next on the page: the event loop runs a waiting task,
    the page or the user changes the document, or the user invokes one of
    the two menu commands. *)
Inductive step (w : World) : State -> State -> Prop :=
| step_fire i r s s' : fire w i r s = Some s' -> step w s s'
| step_page d s : step w s (set_dom d s)
| step_menu_set answer s : step w s (V15.menu_set_password answer s)
| step_menu_clear confirmed s : step w s (V15.menu_clear_password confirmed s).

Inductive reachable (w : World) (s0 : State) : State -> Prop :=
| reach_start : reachable w s0 s0
| reach_step s s' : reachable w s0 s -> step w s s' -> reachable w s0 s'.

(** The handlers the route dispatch chooses between. *)
Inductive handler : Type := H_interstitial | H_business | H_login.

Definition handler_body (h : handler) : prog :=
  match h with
  | H_interstitial => V15.handleLabsAuthPage
  | H_business => V15.handleLabsGoogle
  | H_login => V15.handleAccountsGoogle
  end.

(** The message a program starts by printing, if it starts that way. *)
Definition first_message (p : prog) : option message :=
  match p with
  | Vis e _ => match e with Console _ m => Some m | _ => None end
  | _ => None
  end.

(** ** Observing a run *)

Definition is_dispatch_of (t : event_type) (a : action) : bool :=
  match a with
  | A_dispatch _ ev =>
      match ev_type ev, t with
      | EV_input, EV_input | EV_change, EV_change => bubbles ev
      | _, _ => false
      end
  | _ => false
  end.

(** The bubbling events of type [t] dispatched in a trace. *)
Definition dispatched (t : event_type) (tr : list action) : nat :=
  List.length (filter (is_dispatch_of t) tr).

Definition is_dispatch (a : action) : bool :=
  match a with A_dispatch _ _ => true | _ => false end.

Definition is_click (a : action) : bool :=
  match a with A_click _ => true | _ => false end.

Definition is_clear (a : action) : bool :=
  match a with A_clear_interval _ => true | _ => false end.

(** Actions on a form field or that start a password entry. *)
Definition is_entry_action (a : action) : bool :=
  match a with
  | A_focus _ | A_set_value _ _ | A_dispatch _ _ | A_sleep _ => true
  | _ => false
  end.

(** The requests sent in a trace. *)
Fixpoint posts (tr : list action) : list request :=
  match tr with
  | [] => []
  | A_xhr req :: tr' => req :: posts tr'
  | _ :: tr' => posts tr'
  end.

(** The time slept in a trace. *)
Fixpoint total_delay (tr : list action) : Q :=
  match tr with
  | [] => 0%Q
  | A_sleep ms :: tr' => (ms + total_delay tr')%Q
  | _ :: tr' => total_delay tr'
  end.

(** The trace of typing [text] into [element], one keystroke after the
    other: a sleep of a whole number of time units in [50, 150), the
    native setter writing a value that ends with the character, and a
    bubbling input event. *)
Inductive keystrokes (element : elem) : jsstring -> list action -> Prop :=
| keys_done : keystrokes element [] []
| keys_next (delay : Z) (before : jsstring) (char : N) rest tr :
    (50 <= delay < 150)%Z ->
    keystrokes element rest tr ->
    keystrokes element (char :: rest)
      (A_sleep (inject_Z delay)
       :: A_set_value element (before ++ [char])
       :: A_dispatch element V15.input_event
       :: tr).

(** The same trace when every keystroke writes the value left by the one
    before: the field holds [current], and [text] is appended to it. *)
Inductive appending (element : elem) : jsstring -> jsstring -> list action -> Prop :=
| append_done current : appending element current [] []
| append_next current (delay : Z) (char : N) rest tr :
    appending element (current ++ [char]) rest tr ->
    appending element current (char :: rest)
      (A_sleep (inject_Z delay)
       :: A_set_value element (current ++ [char])
       :: A_dispatch element V15.input_event
       :: tr).

(** The page's listeners leave the value of [element] as it is. *)
Definition listeners_keep_value (w : World) (element : elem) : Prop :=
  forall history a d,
    is_dispatch a = true ->
    value (react w (history ++ [a]) d) element = value d element.


(** ** The lock discipline *)

(** Calls that leave the lock and the task queues alone. *)
Definition quiet_eff (X : Type) (e : eff X) : bool :=
  match e with
  | SetIsTyping _ | ClearInterval _ => false
  | _ => true
  end.

(** A program that only makes quiet calls and sleeps. *)
Inductive neutral : prog -> Prop :=
| neutral_return : neutral Return
| neutral_vis X (e : eff X) k :
    quiet_eff e = true -> (forall x, neutral (k x)) -> neutral (Vis e k)
| neutral_await ms k : neutral k -> neutral (Await ms k).

(** What can be left to run of a password entry: quiet calls and sleeps,
    ending with the unlock timer of line 238. *)
Inductive locked_tail : prog -> Prop :=
| tail_unlock : locked_tail (SetTimeout V15.unlock 5000%Q Return)
| tail_vis X (e : eff X) k :
    quiet_eff e = true -> (forall x, locked_tail (k x)) ->
    locked_tail (Vis e k)
| tail_await ms k : locked_tail k -> locked_tail (Await ms k).


Definition is_resume (p : pending) : bool :=
  match p with P_resume _ _ => true | _ => false end.


(** Password entries in progress: the suspended calls of
    [tryAttemptLogin], the only function of the script that awaits. *)
Definition in_flight (s : State) : nat :=
  List.length (filter is_resume (queue s)).


Definition reload_callback : prog :=
  Console LOG M_reloading ;; LocationReload ;; Return.



(** The two states of the interstitial page: still polling with nothing
    clicked, or cancelled once and clicked once, with nothing left to run. *)
Definition polling (s : State) : Prop :=
  queue s = [P_interval 0 (V15.checkBtn_tick 0) 1000%Q]
  /\ filter is_click (trace s) = [] /\ filter is_clear (trace s) = [].

Definition clicked (s : State) : Prop :=
  queue s = []
  /\ exists before btn,
       trace s = before ++ [A_clear_interval 0; A_click btn]
       /\ filter is_click before = [] /\ filter is_clear before = [].

(** A password is stored and it is not the empty string. *)
Definition configured (s : State) : bool :=
  match gm_password s with Some p => nonempty p | None => false end.

(** ** Sample pages and worlds *)

Definition empty_dom : Dom :=
  {| querySelector := fun _ => None;
     querySelectorOf := fun _ _ => None;
     value := fun _ => [];
     offsetParent := fun _ => None |}.

(** The password page: field 1 (visible, under node 9) and next control 2. *)
Definition password_dom : Dom :=
  {| querySelector := fun sel =>
       match sel with
       | SEL_Passwd => Some 1
       | SEL_passwordNext => Some 2
       | _ => None
       end;
     querySelectorOf := fun _ _ => None;
     value := fun _ => [];
     offsetParent := fun e => if Nat.eqb e 1 then Some 9 else None |}.

(** The account chooser: the first account item is node 3. *)
Definition chooser_dom : Dom :=
  {| querySelector := fun sel =>
       match sel with
       | SEL_account_item => Some 3
       | SEL_Passwd => Some 1
       | SEL_passwordNext => Some 2
       | _ => None
       end;
     querySelectorOf := fun _ _ => None;
     value := fun _ => [];
     offsetParent := fun e => if Nat.eqb e 1 then Some 9 else None |}.

(** The interstitial page: only the secondary selector matches, node 4. *)
Definition signin_dom : Dom :=
  {| querySelector := fun sel =>
       match sel with
       | SEL_button_button => Some 4
       | _ => None
       end;
     querySelectorOf := fun _ _ => None;
     value := fun _ => [];
     offsetParent := fun _ => None |}.

Definition half_unit (n : nat) : (0 <= 1 # 2)%Q /\ (1 # 2 < 1)%Q.
Proof. split; [discriminate | reflexivity]. Defined.

(** A page that never reacts, every draw 1/2, a parser that accepts
    nothing. *)
Definition still_world : World :=
  {| random := fun _ => (1 # 2)%Q;
     random_unit := half_unit;
     react := fun _ d => d;
     parse := fun _ => None |}.

(** The body of a successful answer of the backend, parsed. *)
Definition success_body : json :=
  JObj [ (lit "success", JBool true);
         (lit "data", JObj [ (lit "email", JStr (lit "a@b.com"));
                             (lit "action", JStr (lit "created")) ]) ].

(** A world whose parser reads every body as [success_body]. *)
Definition sync_world : World :=
  {| random := fun _ => (1 # 2)%Q;
     random_unit := half_unit;
     react := fun _ d => d;
     parse := fun _ => Some success_body |}.

(** ** Answers of the backend *)

(** The answer is taken as a success: status 200, a body that parses, a
    truthy [success], and [inner] is what [data.data] reads. *)
Definition accepted (w : World) (resp : response) (inner : jsvalue) : Prop :=
  status resp = 200%Z
  /\ exists data success,
       parse w (responseText resp) = Some data
       /\ get_prop (Some data) (lit "success") = Some success
       /\ truthy success = true
       /\ get_prop (Some data) (lit "data") = Some inner.

(** ** What a page's handler may do *)

(** The synchronous calls a program may make. *)
Definition permission : Type := forall X : Type, eff X -> bool.

(** A program, with its callbacks, that makes only permitted calls and
    reaches the cookie store and the network only when [net] holds. *)
Inductive within (allow : permission) (net : bool) : prog -> Prop :=
| within_return : within allow net Return
| within_vis X (e : eff X) k :
    allow X e = true -> (forall x, within allow net (k x)) ->
    within allow net (Vis e k)
| within_await ms k : within allow net k -> within allow net (Await ms k)
| within_timeout cb ms k :
    within allow net cb -> within allow net k ->
    within allow net (SetTimeout cb ms k)
| within_interval cb ms k :
    (forall h, within allow net (cb h)) -> (forall h, within allow net (k h)) ->
    within allow net (SetInterval cb ms k)
| within_cookie name cb k :
    net = true -> (forall c e, within allow net (cb c e)) ->
    within allow net k ->
    within allow net (GM_cookie_list name cb k)
| within_xhr req onload onerror k :
    net = true ->
    (forall f, onload = Some f -> forall r, within allow net (f r)) ->
    (forall f, onerror = Some f -> forall e, within allow net (f e)) ->
    within allow net k ->
    within allow net (GM_xmlhttpRequest req onload onerror k).

Definition entry_within (allow : permission) (net : bool) (p : pending) : Prop :=
  match p with
  | P_timeout cb _ | P_interval _ cb _ | P_resume cb _ => within allow net cb
  | P_cookie _ cb => net = true /\ forall c e, within allow net (cb c e)
  | P_xhr _ onload onerror =>
      net = true
      /\ (forall f, onload = Some f -> forall r, within allow net (f r))
      /\ (forall f, onerror = Some f -> forall e, within allow net (f e))
  end.

(** The actions that permitted calls leave in the trace. *)
Definition permitted (allow : permission) (net : bool) (a : action) : bool :=
  match a with
  | A_query sel => allow _ (DocQuerySelector sel)
  | A_query_of e sel => allow _ (ElemQuerySelector e sel)
  | A_console lvl m => allow _ (Console lvl m)
  | A_click e => allow _ (Click e)
  | A_focus e => allow _ (Focus e)
  | A_set_value e v => allow _ (NativeSetValue e v)
  | A_dispatch e ev => allow _ (DispatchEvent e ev)
  | A_clear_interval h => allow _ (ClearInterval h)
  | A_reload => allow _ LocationReload
  | A_cookie_list _ | A_xhr _ => net
  | A_sleep _ | A_set_timeout _ | A_set_interval _ _ => true
  end.

(** The state of a page whose script has kept to its permissions. *)
Definition disciplined (allow : permission) (net : bool) (s : State) : Prop :=
  Forall (entry_within allow net) (queue s)
  /\ forallb (permitted allow net) (trace s) = true.

(** The login state machine: anything but a reload, a parse, or clearing
    an interval. *)
Definition login_calls : permission :=
  fun _ e =>
    match e with
    | LocationReload | JSON_parse _ | ClearInterval _ => false
    | _ => true
    end.

(** The interstitial page: probes of the document, log lines, clearing its
    interval, and the click. *)
Definition signin_calls : permission :=
  fun _ e =>
    match e with
    | DocQuerySelector _ | Console _ _ | ClearInterval _ | Click _ => true
    | _ => false
    end.

(** The business page: log lines, the parse of an answer, the reload. *)
Definition sync_calls : permission :=
  fun _ e =>
    match e with
    | Console _ _ | JSON_parse _ | LocationReload => true
    | _ => false
    end.

(** Actions that leave the page: a read of the cookie store, a request, a
    reload. *)
Definition is_remote (a : action) : bool :=
  match a with
  | A_cookie_list _ | A_xhr _ | A_reload => true
  | _ => false
  end.

(** Actions on the document. *)
Definition is_dom_action (a : action) : bool :=
  match a with
  | A_query _ | A_query_of _ _ | A_click _ | A_focus _ | A_set_value _ _
  | A_dispatch _ _ => true
  | _ => false
  end.

(** Actions on a form field. *)
Definition is_field_action (a : action) : bool :=
  match a with
  | A_focus _ | A_set_value _ _ | A_dispatch _ _ => true
  | _ => false
  end.

(** Release 1.2 has run on a freshly loaded page. *)
Definition boot12 (w : World) (d : Dom) (stored : option jsstring) : State :=
  run_task w V12.main (init d stored).

(** ** One sync per page load *)

Definition is_console (a : action) : bool :=
  match a with A_console _ _ => true | _ => false end.

Definition is_sync_action (a : action) : bool :=
  match a with A_cookie_list _ | A_xhr _ => true | _ => false end.

Definition is_reload (a : action) : bool :=
  match a with A_reload => true | _ => false end.

(** How far the sync of a page load has got. *)
Inductive sync_stage : Type :=
| SYNC_waiting                     (* the timer of 3000 has not fired *)
| SYNC_asked                       (* the cookie store has been asked *)
| SYNC_sent (st : jsstring)        (* the request is out *)
| SYNC_over (sent : option jsstring). (* answered, or nothing was sent *)

(** What the sync has left in the trace at each stage. *)
Definition sync_log (stage : sync_stage) : list action :=
  match stage with
  | SYNC_waiting => []
  | SYNC_asked | SYNC_over None => [A_cookie_list SESSION_COOKIE]
  | SYNC_sent st | SYNC_over (Some st) =>
      [A_cookie_list SESSION_COOKIE; A_xhr (sync_request st)]
  end.

(** What is waiting at each stage, for a release whose sync is [sync],
    with its cookie callback and its request handlers. *)
Definition sync_queue (sync : prog)
    (callback : option (list cookie) -> option jsstring -> prog)
    (onload : option (response -> prog)) (onerror : option (jsstring -> prog))
    (stage : sync_stage) (reload_waiting : bool) : list pending :=
  match stage with
  | SYNC_waiting => [P_timeout sync 3000%Q]
  | _ => []
  end
  ++ (if reload_waiting
      then [P_timeout reload_callback (inject_Z CONFIG.RELOAD_INTERVAL)]
      else [])
  ++ match stage with
     | SYNC_asked => [P_cookie SESSION_COOKIE callback]
     | SYNC_sent st => [P_xhr (sync_request st) onload onerror]
     | _ => []
     end.

Definition sync_phase (sync : prog)
    (callback : option (list cookie) -> option jsstring -> prog)
    (onload : option (response -> prog)) (onerror : option (jsstring -> prog))
    (stage : sync_stage) (reload_waiting : bool) (s : State) : Prop :=
  queue s = sync_queue sync callback onload onerror stage reload_waiting
  /\ filter is_sync_action (trace s) = sync_log stage
  /\ filter is_reload (trace s) = (if reload_waiting then [] else [A_reload]).

(** ** A password entry from start to end *)


(** The password prompt is ready for an entry: no account list, both
    controls present, the input visible and empty. *)
Definition prompt_ready (d : Dom) (input next : elem) : Prop :=
  querySelector d SEL_account_item = None
  /\ querySelector d SEL_Passwd = Some input
  /\ querySelector d SEL_passwordNext = Some next
  /\ offsetParent d input <> None
  /\ value d input = [].

Definition is_no_password_warning (a : action) : bool :=
  match a with
  | A_console WARN M_no_password => true
  | _ => false
  end.

(** ** Substring containment *)

Lemma startsWith_spec (pat s : jsstring) :
  startsWith s pat = true <-> exists post, s = pat ++ post.
Proof.
  revert s; induction pat as [|p pat IH]; intros s.
  - split; [intros _; exists s; reflexivity | destruct s; reflexivity].
  - destruct s as [|c s]; simpl.
    + split; [discriminate | intros [post H]; discriminate].
    + rewrite andb_true_iff, N.eqb_eq, IH. split.
      * intros [-> [post ->]]. exists post. reflexivity.
      * intros [post H]. injection H as -> ->. split; [reflexivity | eauto].
Qed.

Lemma includes_spec (s pat : jsstring) :
  includes s pat = true <-> exists pre post, s = pre ++ pat ++ post.
Proof.
  induction s as [|c s IH].
  - cbn [includes]. rewrite orb_false_r, startsWith_spec. split.
    + intros [post H]. exists [], post. exact H.
    + intros [pre [post H]]. destruct pre; [eauto|discriminate].
  - cbn [includes]. rewrite orb_true_iff, startsWith_spec, IH. split.
    + intros [[post H] | [pre [post H]]].
      * exists [], post. exact H.
      * exists (c :: pre), post. simpl. now rewrite H.
    + intros [pre [post H]]. destruct pre as [|c' pre].
      * left. exists post. exact H.
      * right. injection H as -> H. eauto.
Qed.

Lemma jsstring_eqb_eq (a b : jsstring) : jsstring_eqb a b = true <-> a = b.
Proof.
  unfold jsstring_eqb. destruct (list_eq_dec N.eq_dec a b); split;
    congruence.
Qed.

Lemma handler_body_inj (h1 h2 : handler) :
  handler_body h1 = handler_body h2 -> h1 = h2.
Proof.
  intros H. apply (f_equal first_message) in H.
  destruct h1, h2; try reflexivity; discriminate H.
Qed.

(** ** Traces *)

Lemma emitted_app (s s' : State) (l : list action) :
  trace s' = trace s ++ l -> emitted s s' = l.
Proof.
  intros H. unfold emitted. rewrite H, skipn_app, skipn_all, Nat.sub_diag.
  reflexivity.
Qed.

Lemma emitted_refl (s : State) : emitted s s = [].
Proof. apply emitted_app. now rewrite app_nil_r. Qed.

(** Reads the added actions off a state built with [emit] and [interact]. *)
Ltac read_trace :=
  apply emitted_app; cbn [trace emit interact set_dom set_isTyping enqueue
    set_queue cancel drawn fresh_handle dequeue set_gm_password];
  repeat rewrite <- app_assoc; reflexivity.

Lemma perform_trace (w : World) (X : Type) (e : eff X) (s : State) :
  exists l, trace (snd (perform w e s)) = trace s ++ l.
Proof.
  destruct e; cbn;
    first [ now (exists []; rewrite app_nil_r) | eexists; reflexivity ].
Qed.

Lemma run_through_trace (w : World) (p : prog) :
  forall s, exists l, trace (run_through w p s) = trace s ++ l.
Proof.
  induction p as [| X e k IH | ms k IH | cb _ ms k IH | cb _ ms k IH
                 | name cb _ k IH | req onload onerror k IH]; intros s; cbn.
  - exists []. now rewrite app_nil_r.
  - destruct (perform_trace w e s) as [l1 H1].
    destruct (perform w e s) as [x s1]. cbn in H1.
    destruct (IH x s1) as [l2 H2]. exists (l1 ++ l2).
    now rewrite H2, H1, app_assoc.
  - destruct (IH (interact w (A_sleep ms) s)) as [l H]. rewrite H. cbn.
    rewrite <- app_assoc. eauto.
  - destruct (IH (enqueue (P_timeout cb ms) (emit (A_set_timeout ms) s)))
      as [l H]. rewrite H. cbn. rewrite <- app_assoc. eauto.
  - destruct (IH (next_handle s)
                (enqueue (P_interval (next_handle s) (cb (next_handle s)) ms)
                   (emit (A_set_interval (next_handle s) ms) (fresh_handle s))))
      as [l H]. rewrite H. cbn. rewrite <- app_assoc. eauto.
  - destruct (IH (enqueue (P_cookie name cb) (emit (A_cookie_list name) s)))
      as [l H]. rewrite H. cbn. rewrite <- app_assoc. eauto.
  - destruct (IH (enqueue (P_xhr req onload onerror) (emit (A_xhr req) s)))
      as [l H]. rewrite H. cbn. rewrite <- app_assoc. eauto.
Qed.

Lemma run_through_seq (w : World) (p q : prog) :
  forall s, run_through w (seq p q) s = run_through w q (run_through w p s).
Proof.
  induction p as [| X e k IH | ms k IH | cb _ ms k IH | cb _ ms k IH
                 | name cb _ k IH | req onload onerror k IH]; intros s; cbn;
    try reflexivity; try apply IH.
  destruct (perform w e s) as [x s1]. apply IH.
Qed.

(** ** Page classification *)

(** C8: the route dispatch is a function of hostname and path alone, the
    first matching rule wins (interstitial marker on the target host, then
    the target host, then the identity provider's host), the business-page
    handler schedules the sync and the reload, and on every host the script
    header admits exactly one handler is chosen. *)
Theorem C8_route_first_match_wins (host path : jsstring) :
  V15.main host path =
    (if includes host (lit "labs.google") then
       if includes path (lit "/auth/signin") then handler_body H_interstitial
       else handler_body H_business
     else if includes host (lit "accounts.google.com") then handler_body H_login
     else Return)
  /\ (forall w d stored,
        queue (run_task w (handler_body H_business) (init d stored)) =
          [ P_timeout V15.syncToken 3000%Q;
            P_timeout (Console LOG M_reloading ;; LocationReload ;; Return)
                      (inject_Z CONFIG.RELOAD_INTERVAL) ])
  /\ (V15.matched host = true ->
      exists h, V15.main host path = handler_body h
                /\ forall h', V15.main host path = handler_body h' -> h' = h).
Proof.
  split; [reflexivity | split; [reflexivity |]].
  intros Hm.
  assert (exists h, V15.main host path = handler_body h) as [h Hh].
  { unfold V15.matched in Hm. rewrite orb_true_iff, !jsstring_eqb_eq in Hm.
    destruct Hm as [-> | ->]; unfold V15.main.
    - replace (includes (lit "labs.google") (lit "labs.google")) with true
        by (vm_compute; reflexivity).
      destruct (includes path (lit "/auth/signin"));
        [exists H_interstitial | exists H_business]; reflexivity.
    - replace (includes (lit "accounts.google.com") (lit "labs.google"))
        with false by (vm_compute; reflexivity).
      replace (includes (lit "accounts.google.com") (lit "accounts.google.com"))
        with true by (vm_compute; reflexivity).
      exists H_login; reflexivity. }
  exists h. split; [exact Hh |].
  intros h' Hh'. apply handler_body_inj. congruence.
Qed.

Lemma C8_route_first_match_wins_witness :
  exists h, V15.main (lit "labs.google") (lit "/fx/tools/flow") = handler_body h
            /\ forall h', V15.main (lit "labs.google") (lit "/fx/tools/flow")
                          = handler_body h' -> h' = h.
Proof.
  apply (C8_route_first_match_wins (lit "labs.google") (lit "/fx/tools/flow")).
  vm_compute. reflexivity.
Defined.

(** C9 as stated fails: a hostname may contain the identity provider's
    domain and still be routed to the target-application handlers, since
    the test for the target application's domain comes first. *)
Lemma C9_counterexample :
  ~ (forall host path,
       includes host (lit "accounts.google.com") = true ->
       V15.main host path = V15.handleAccountsGoogle).
Proof.
  intros H.
  specialize (H (lit "accounts.google.com.labs.google") (lit "/")).
  assert (E : V15.main (lit "accounts.google.com.labs.google") (lit "/")
              = V15.handleLabsGoogle) by (vm_compute; reflexivity).
  rewrite E in H.
  specialize (H ltac:(vm_compute; reflexivity)).
  apply (f_equal first_message) in H. discriminate H.
Qed.

(** C9, amended: the domain tests are substring tests.  Every hostname that
    contains labs.google anywhere runs the target-application handlers (the
    interstitial click when the path contains the marker, the cookie
    harvest and sync otherwise), labs.google.example.com among them; every
    hostname that contains accounts.google.com and does not contain
    labs.google runs the login state machine, whose poll is
    [tryAttemptLogin] with its password entry. *)
Theorem C9_domain_tests_are_substring_tests :
  (forall pre post path,
     V15.main (pre ++ lit "labs.google" ++ post) path =
       if includes path (lit "/auth/signin") then V15.handleLabsAuthPage
       else V15.handleLabsGoogle)
  /\ V15.main (lit "labs.google.example.com") (lit "/fx") = V15.handleLabsGoogle
  /\ (forall pre post path,
        includes (pre ++ lit "accounts.google.com" ++ post) (lit "labs.google")
          = false ->
        V15.main (pre ++ lit "accounts.google.com" ++ post) path =
          V15.handleAccountsGoogle)
  /\ (forall w s,
        queue (run_task w V15.handleAccountsGoogle s) =
          queue s ++ [P_interval (next_handle s) V15.tryAttemptLogin 1500%Q]).
Proof.
  split; [| split; [vm_compute; reflexivity | split]].
  - intros pre post path. unfold V15.main.
    assert (E : includes (pre ++ lit "labs.google" ++ post) (lit "labs.google")
                = true) by (apply includes_spec; eauto).
    rewrite E. reflexivity.
  - intros pre post path Hno. unfold V15.main. rewrite Hno.
    assert (E : includes (pre ++ lit "accounts.google.com" ++ post)
                  (lit "accounts.google.com") = true)
      by (apply includes_spec; eauto).
    rewrite E. reflexivity.
  - intros w s. reflexivity.
Qed.

Lemma C9_domain_tests_are_substring_tests_witness :
  V15.main ([] ++ lit "accounts.google.com" ++ lit ".evil.example") (lit "/")
    = V15.handleAccountsGoogle.
Proof.
  apply (proj1 (proj2 (proj2 C9_domain_tests_are_substring_tests))).
  vm_compute. reflexivity.
Defined.

(** ** Cookie harvest and token sync *)

(** C3: what the cookie store answers decides the sync.  With no error
    reported and at least one cookie, the callback is exactly one call of
    [sendTokenToServer] on the value of the first cookie, and one request
    goes out; with no cookie, one plain log line and no request; with an
    error reported, one error line and no request. *)
Theorem C3_cookie_response_decides_sync (w : World) (s : State)
    (cookies : option (list cookie)) (error : option jsstring) :
  let s' := run_task w (V15.syncToken_callback cookies error) s in
  match reported error, cookies with
  | Some e, _ =>
      emitted s s' = [A_console ERROR (M_cookie_error e)]
      /\ posts (emitted s s') = [] /\ queue s' = queue s
  | None, Some (c :: _) =>
      s' = run_task w (V15.sendTokenToServer (cookie_value c)) s
      /\ emitted s s' = [A_console LOG M_token_found;
                         A_xhr (sync_request (cookie_value c))]
      /\ posts (emitted s s') = [sync_request (cookie_value c)]
  | None, _ =>
      emitted s s' = [A_console LOG M_no_session_token]
      /\ posts (emitted s s') = [] /\ queue s' = queue s
  end.
Proof.
  unfold V15.syncToken_callback.
  destruct (reported error) as [e|]; cbn.
  - assert (E : emitted s (emit (A_console ERROR (M_cookie_error e)) s)
                = [A_console ERROR (M_cookie_error e)]) by read_trace.
    rewrite E. auto.
  - destruct cookies as [[|c rest]|]; cbn.
    + assert (E : emitted s (emit (A_console LOG M_no_session_token) s)
                  = [A_console LOG M_no_session_token]) by read_trace.
      rewrite E. auto.
    + match goal with |- _ /\ emitted s ?s' = ?l /\ _ =>
        assert (E : emitted s s' = l) by read_trace end.
      rewrite E. auto.
    + assert (E : emitted s (emit (A_console LOG M_no_session_token) s)
                  = [A_console LOG M_no_session_token]) by read_trace.
      rewrite E. auto.
Qed.

(** Release 1.2 logs every failed sync and never sends again. *)
Lemma V12_failed_sync_is_logged (w : World) (s : State) (resp : response) :
  let s' := run_task w (V12.onload resp) s in
  posts (emitted s s') = []
  /\ exists lvl m, emitted s s' = [A_console lvl m]
       /\ (lvl = LOG -> exists email act, m = M_sync_ok_12 email act).
Proof.
  unfold V12.onload.
  assert (L : forall lvl m, emitted s (emit (A_console lvl m) s)
                            = [A_console lvl m]) by (intros; read_trace).
  destruct (status resp =? 200)%Z; cbn [run_task perform];
    [| rewrite L; split; [reflexivity | do 2 eexists; split;
                                        [reflexivity | discriminate]]].
  destruct (parse w (responseText resp)) as [data|]; cbn [run_task perform];
    [| rewrite L; split; [reflexivity | do 2 eexists; split;
                                        [reflexivity | discriminate]]].
  destruct (get_prop (Some data) (lit "success")) as [success|]; cbn [run_task perform];
    [| rewrite L; split; [reflexivity | do 2 eexists; split;
                                        [reflexivity | discriminate]]].
  destruct (truthy success); cbn [run_task perform];
    [| rewrite L; split; [reflexivity | do 2 eexists; split;
                                        [reflexivity | discriminate]]].
  destruct (get_prop (Some data) (lit "data")) as [inner|]; cbn [run_task perform];
    [| rewrite L; split; [reflexivity | do 2 eexists; split;
                                        [reflexivity | discriminate]]].
  destruct (get_prop inner (lit "email")) as [email|],
           (get_prop inner (lit "action")) as [act|]; cbn [run_task perform]; rewrite L;
    (split; [reflexivity | do 2 eexists; split;
                           [reflexivity | try discriminate; eauto]]).
Qed.

(** Release 1.5 logs a successful sync and nothing else: whatever the
    response, no error line is printed and nothing is sent again. *)
Lemma V15_onload_logs_success_only (w : World) (s : State) (resp : response) :
  let s' := run_task w (V15.onload resp) s in
  posts (emitted s s') = []
  /\ (emitted s s' = [] \/ exists email, emitted s s' = [A_console LOG (M_sync_ok email)]).
Proof.
  unfold V15.onload.
  assert (L : forall lvl m, emitted s (emit (A_console lvl m) s)
                            = [A_console lvl m]) by (intros; read_trace).
  pose proof (emitted_refl s) as R.
  destruct (status resp =? 200)%Z; cbn [run_task perform]; [| rewrite R; auto].
  destruct (parse w (responseText resp)) as [data|]; cbn [run_task perform]; [| rewrite R; auto].
  destruct (get_prop (Some data) (lit "success")) as [success|]; cbn [run_task perform];
    [| rewrite R; auto].
  destruct (truthy success); cbn [run_task perform]; [| rewrite R; auto].
  destruct (get_prop (Some data) (lit "data")) as [inner|]; cbn [run_task perform];
    [| rewrite R; auto].
  destruct (get_prop inner (lit "email")) as [email|]; cbn [run_task perform];
    [rewrite L; eauto | rewrite R; auto].
Qed.

(** C4, at a failing input: a response with status 500.  Release 1.2 prints
    the error line of line 55; release 1.5 prints nothing, and prints
    nothing either when the transport fails, since it gives no [onerror].
    Both releases send exactly one request per attempt. *)
Theorem C4_release_15_drops_failures (w : World) (s : State) :
  let resp := {| status := 500; responseText := lit "Internal Server Error" |} in
  let sent := run_task w (V15.sendTokenToServer (lit "tok_XYZ")) s in
  emitted s (run_task w (V12.onload resp) s)
    = [A_console ERROR (M_http_failed 500 (lit "Internal Server Error"))]
  /\ emitted s (run_task w (V15.onload resp) s) = []
  /\ posts (emitted s sent) = [sync_request (lit "tok_XYZ")]
  /\ queue sent = queue s ++ [P_xhr (sync_request (lit "tok_XYZ"))
                                (Some V15.onload) None]
  /\ (forall err,
        exists s1,
          fire w (List.length (queue s)) (R_error err) sent = Some s1
          /\ emitted sent s1 = []).
Proof.
  cbn zeta. split; [| split; [| split; [| split]]].
  - cbn. read_trace.
  - cbn. apply emitted_refl.
  - cbn. match goal with |- posts (emitted s ?s') = _ =>
      assert (E : emitted s s' = [A_console LOG M_token_found;
                                  A_xhr (sync_request (lit "tok_XYZ"))])
        by read_trace end.
    rewrite E. reflexivity.
  - reflexivity.
  - intros err. unfold fire.
    assert (E : nth_error
                  (queue (run_task w (V15.sendTokenToServer (lit "tok_XYZ")) s))
                  (List.length (queue s))
                = Some (P_xhr (sync_request (lit "tok_XYZ"))
                          (Some V15.onload) None)).
    { change (queue (run_task w (V15.sendTokenToServer (lit "tok_XYZ")) s))
        with (queue s ++ [P_xhr (sync_request (lit "tok_XYZ"))
                            (Some V15.onload) None]).
      rewrite nth_error_app2, Nat.sub_diag by lia. reflexivity. }
    rewrite E. eexists. split; [reflexivity |].
    apply emitted_app. cbn [run_task trace dequeue set_queue].
    now rewrite app_nil_r.
Qed.

(** ** Humanized typing *)

Lemma keystroke_delay (w : World) (n : nat) :
  (50 <= Qfloor (random w n * 100) + 50 < 150)%Z.
Proof.
  destruct (random_unit w n) as [Hlo Hhi].
  assert (L : (0 <= Qfloor (random w n * 100))%Z).
  { change 0%Z with (Qfloor 0). apply Qfloor_resp_le.
    apply Qmult_le_0_compat; [exact Hlo | discriminate]. }
  assert (U : (Qfloor (random w n * 100) < 100)%Z).
  { rewrite Zlt_Qlt. eapply Qle_lt_trans; [apply Qfloor_le |].
    setoid_replace (inject_Z 100) with (1 * 100)%Q by reflexivity.
    apply Qmult_lt_compat_r; [reflexivity | exact Hhi]. }
  lia.
Qed.

Lemma set_value_same (d : Dom) (e : elem) (v : jsstring) :
  value (set_value d e v) e = v.
Proof. cbn. now rewrite Nat.eqb_refl. Qed.

(** The loop of [typeStringSimulate] followed through its sleeps. *)
Lemma typeChars_through (w : World) (element : elem) (text : jsstring) :
  forall s,
    let s' := run_through w (V15.typeChars element text) s in
    isTyping s' = isTyping s /\ queue s' = queue s
    /\ exists tr,
         trace s' = trace s ++ tr
         /\ keystrokes element text tr
         /\ (listeners_keep_value w element ->
             value (dom s') element = value (dom s) element ++ text
             /\ appending element (value (dom s) element) text tr).
Proof.
  induction text as [|char rest IH]; intros s; cbn zeta.
  - cbn. split; [reflexivity | split; [reflexivity |]]. exists []. 
    rewrite !app_nil_r. repeat split; constructor.
  - cbn [V15.typeChars run_through perform].
    set (delay := (Qfloor (random w (draws s) * 100) + 50)%Z).
    set (v := value (dom s) element ++ [char]).
    set (s2 := interact w (A_sleep (inject_Z delay)) (drawn s)).
    set (s3 := emit (A_set_value element v)
                 (set_dom (set_value (dom s2) element v) s2)).
    set (s4 := interact w (A_dispatch element V15.input_event) s3).
    destruct (IH s4) as [HT [HQ [tr [Htr [Hk Hv]]]]].
    split; [rewrite HT; reflexivity | split; [rewrite HQ; reflexivity |]].
    exists (A_sleep (inject_Z delay) :: A_set_value element v
            :: A_dispatch element V15.input_event :: tr).
    split; [| split].
    + rewrite Htr. cbn. now rewrite <- !app_assoc.
    + constructor; [apply keystroke_delay | exact Hk].
    + intros Hquiet. destruct (Hv Hquiet) as [Hval Happ].
      assert (E : value (dom s4) element = v).
      { unfold s4, interact. cbn [dom set_dom trace emit].
        rewrite Hquiet by reflexivity. apply set_value_same. }
      rewrite E in Hval, Happ. split.
      * rewrite Hval. unfold v. now rewrite <- app_assoc.
      * constructor. exact Happ.
Qed.

Lemma typeStringSimulate_through (w : World) (element : elem)
    (text : jsstring) (s : State) :
  let s' := run_through w (V15.typeStringSimulate element text) s in
  isTyping s' = isTyping s /\ queue s' = queue s
  /\ exists tr,
       emitted s s' = tr ++ [A_dispatch element V15.change_event]
       /\ keystrokes element text tr
       /\ (listeners_keep_value w element ->
           value (dom s') element = value (dom s) element ++ text
           /\ appending element (value (dom s) element) text tr).
Proof.
  cbn zeta. unfold V15.typeStringSimulate. rewrite run_through_seq.
  destruct (typeChars_through w element text s) as [HT [HQ [tr [Htr [Hk Hv]]]]].
  cbn [run_through perform].
  split; [exact HT | split; [exact HQ |]].
  exists tr. split; [| split].
  - apply emitted_app. cbn. now rewrite Htr, <- app_assoc.
  - exact Hk.
  - intros Hquiet. destruct (Hv Hquiet) as [Hval Happ]. split; [| exact Happ].
    rewrite <- Hval. unfold interact. cbn [dom set_dom trace emit].
    now rewrite Hquiet.
Qed.

Lemma dispatched_app (t : event_type) (a b : list action) :
  dispatched t (a ++ b) = dispatched t a + dispatched t b.
Proof. unfold dispatched. now rewrite filter_app, length_app. Qed.

Lemma keystrokes_input (element : elem) (text : jsstring) (tr : list action) :
  keystrokes element text tr ->
  dispatched EV_input tr = List.length text /\ dispatched EV_change tr = 0.
Proof.
  induction 1 as [| delay before char rest tr Hd Hk [IH1 IH2]].
  - split; reflexivity.
  - unfold dispatched in *. cbn. now rewrite IH1, IH2.
Qed.



(** ** The poll tick of the login state machine *)

Ltac tick_step :=
  cbn [run_task perform dom isTyping queue gm_password trace emit interact
       set_dom set_isTyping enqueue set_queue drawn fst snd].

Ltac tick_trace :=
  erewrite emitted_app
    by (cbn [trace emit interact set_dom set_isTyping enqueue set_queue drawn];
        repeat rewrite <- app_assoc; reflexivity).


Lemma tick_account (w : World) (s : State) (item : elem) :
  isTyping s = false ->
  querySelector (dom s) SEL_account_item = Some item ->
  let s' := run_task w V15.tryAttemptLogin s in
  emitted s s' = [A_query SEL_account_item;
                  A_console LOG M_account_list_found; A_click item]
  /\ queue s' = queue s /\ isTyping s' = false.
Proof.
  intros HL HA. cbn zeta. unfold V15.tryAttemptLogin. tick_step.
  rewrite HL. tick_step. rewrite HA. tick_step. split; [read_trace | split; [reflexivity | exact HL]].
Qed.

Lemma tick_not_started (w : World) (s : State) :
  let s' := run_task w V15.tryAttemptLogin s in
  (isTyping s = true
   \/ querySelector (dom s) SEL_account_item <> None
   \/ querySelector (dom s) SEL_Passwd = None
   \/ querySelector (dom s) SEL_passwordNext = None
   \/ (exists input, querySelector (dom s) SEL_Passwd = Some input
                     /\ (offsetParent (dom s) input = None
                         \/ value (dom s) input <> []))
   \/ configured s = false) ->
  isTyping s' = isTyping s /\ queue s' = queue s
  /\ existsb is_entry_action (emitted s s') = false.
Proof.
  cbn zeta. intros H. unfold V15.tryAttemptLogin. tick_step.
  destruct (isTyping s) eqn:HL; tick_step.
  { rewrite emitted_refl. auto. }
  destruct (querySelector (dom s) SEL_account_item) as [item|] eqn:HA;
    tick_step.
  { tick_trace. auto. }
  destruct (querySelector (dom s) SEL_Passwd) as [input|] eqn:HP;
    [| tick_step; tick_trace; auto].
  destruct (querySelector (dom s) SEL_passwordNext) as [next|] eqn:HN;
    tick_step; [| tick_trace; auto].
  destruct (offsetParent (dom s) input) as [parent|] eqn:HO;
    tick_step; [| tick_trace; auto].
  destruct (value (dom s) input) as [|c v] eqn:HV; cbn [nonempty];
    tick_step; [| tick_trace; auto].
  destruct (gm_password s) as [[|c pw]|] eqn:HG; cbn [nonempty negb];
    tick_step; try (tick_trace; auto).
  exfalso. unfold configured in H. rewrite HG in H. cbn in H.
  destruct H as [H | [H | [H | [H | [[input' [E H] ] | H]]]]];
    try discriminate; try congruence.
  injection E as <-. destruct H; congruence.
Qed.

Lemma neutral_then_tail (p q : prog) :
  neutral p -> locked_tail q -> locked_tail (seq p q).
Proof.
  intros Hp Hq. induction Hp as [| X e k He Hk IH | ms k Hk IH]; cbn.
  - exact Hq.
  - apply tail_vis; [exact He | exact IH].
  - apply tail_await. exact IH.
Qed.

Lemma neutral_seq (p q : prog) : neutral p -> neutral q -> neutral (seq p q).
Proof.
  intros Hp Hq. induction Hp as [| X e k He Hk IH | ms k Hk IH]; cbn.
  - exact Hq.
  - apply neutral_vis; [exact He | exact IH].
  - apply neutral_await. exact IH.
Qed.

Lemma typeChars_neutral (element : elem) (text : jsstring) :
  neutral (V15.typeChars element text).
Proof.
  induction text as [|char rest IH]; cbn [V15.typeChars].
  - constructor.
  - repeat (first [ apply neutral_vis; [reflexivity | intros ?]
                  | apply neutral_await ]).
    exact IH.
Qed.

Lemma typeStringSimulate_neutral (element : elem) (text : jsstring) :
  neutral (V15.typeStringSimulate element text).
Proof.
  unfold V15.typeStringSimulate. apply neutral_seq.
  - apply typeChars_neutral.
  - apply neutral_vis; [reflexivity | intros _; constructor].
Qed.

(** What [enterPassword] still has to do after its first sleep. *)
Lemma enterPassword_parks (w : World) (input next : elem) (pw : jsstring)
    (s : State) :
  let s' := run_task w (V15.enterPassword input next pw) s in
  isTyping s' = isTyping s
  /\ trace s' = trace s ++ [A_console LOG M_typing_prepare; A_focus input;
                            A_sleep 500%Q]
  /\ exists k, queue s' = queue s ++ [P_resume k 500%Q] /\ locked_tail k.
Proof.
  cbn zeta. unfold V15.enterPassword. tick_step.
  split; [reflexivity | split].
  - repeat rewrite <- app_assoc. reflexivity.
  - eexists. split; [reflexivity |].
    apply neutral_then_tail; [apply typeStringSimulate_neutral |].
    repeat (first [ apply tail_unlock
                  | apply tail_vis; [reflexivity | intros ?]
                  | apply tail_await ]).
Qed.

Lemma tick_started (w : World) (s : State) (input next : elem) :
  isTyping s = false ->
  querySelector (dom s) SEL_account_item = None ->
  querySelector (dom s) SEL_Passwd = Some input ->
  querySelector (dom s) SEL_passwordNext = Some next ->
  offsetParent (dom s) input <> None ->
  value (dom s) input = [] ->
  configured s = true ->
  let s' := run_task w V15.tryAttemptLogin s in
  isTyping s' = true
  /\ emitted s s' = [A_query SEL_account_item; A_query SEL_Passwd;
                     A_query SEL_passwordNext;
                     A_console LOG M_typing_prepare; A_focus input;
                     A_sleep 500%Q]
  /\ exists k, queue s' = queue s ++ [P_resume k 500%Q] /\ locked_tail k.
Proof.
  intros HL HA HP HN HO HV HC. cbn zeta.
  unfold V15.tryAttemptLogin. tick_step. rewrite HL. tick_step.
  rewrite HA. tick_step. rewrite HP, HN. tick_step.
  destruct (offsetParent (dom s) input) as [parent|]; [| congruence].
  tick_step. rewrite HV. cbn [nonempty]. tick_step.
  unfold configured in HC.
  destruct (gm_password s) as [[|c pw]|]; try discriminate HC.
  cbn [nonempty negb]. tick_step.
  match goal with |- context [run_task w (V15.enterPassword ?i ?n ?p) ?s0] =>
    destruct (enterPassword_parks w i n p s0) as [HT [Htr [k [HQ Hk]]]] end.
  cbn zeta in HT, Htr, HQ. split; [exact HT | split].
  - apply emitted_app. rewrite Htr. cbn [trace emit set_isTyping].
    repeat rewrite <- app_assoc. reflexivity.
  - exists k. split; [exact HQ | exact Hk].
Qed.

Lemma tick_warns (w : World) (s : State) (input next : elem) :
  isTyping s = false ->
  querySelector (dom s) SEL_account_item = None ->
  querySelector (dom s) SEL_Passwd = Some input ->
  querySelector (dom s) SEL_passwordNext = Some next ->
  offsetParent (dom s) input <> None ->
  value (dom s) input = [] ->
  configured s = false ->
  let s' := run_task w V15.tryAttemptLogin s in
  emitted s s' = [A_query SEL_account_item; A_query SEL_Passwd;
                  A_query SEL_passwordNext; A_console WARN M_no_password]
  /\ dom s' = dom s.
Proof.
  intros HL HA HP HN HO HV HC. cbn zeta.
  unfold V15.tryAttemptLogin. tick_step. rewrite HL. tick_step.
  rewrite HA. tick_step. rewrite HP, HN. tick_step.
  destruct (offsetParent (dom s) input) as [parent|]; [| congruence].
  tick_step. rewrite HV. cbn [nonempty]. tick_step.
  unfold configured in HC.
  destruct (gm_password s) as [[|c pw]|]; try discriminate HC;
    cbn [nonempty negb]; tick_step; (split; [read_trace | reflexivity]).
Qed.

(** C5: on a poll tick the password entry begins (the lock is taken, a
    task is parked, or the field is focused, written or sent an event)
    only if the lock is free, no account item is listed, the password
    input and the next control are both present, the input is visible and
    empty, and a password is configured.  With all the rest in place and
    no password configured, the tick prints one warning and does nothing
    else; with no password configured the lock is never taken and the
    field never touched, whatever the page shows. *)
Theorem C5_password_entry_preconditions (w : World) (s : State) :
  let s' := run_task w V15.tryAttemptLogin s in
  ((isTyping s' <> isTyping s \/ queue s' <> queue s
    \/ existsb is_entry_action (emitted s s') = true) ->
   isTyping s = false
   /\ configured s = true
   /\ querySelector (dom s) SEL_account_item = None
   /\ exists input next,
        querySelector (dom s) SEL_Passwd = Some input
        /\ querySelector (dom s) SEL_passwordNext = Some next
        /\ offsetParent (dom s) input <> None
        /\ value (dom s) input = [])
  /\ (configured s = false ->
      isTyping s' = isTyping s /\ queue s' = queue s
      /\ existsb is_entry_action (emitted s s') = false)
  /\ (forall input next,
        isTyping s = false ->
        querySelector (dom s) SEL_account_item = None ->
        querySelector (dom s) SEL_Passwd = Some input ->
        querySelector (dom s) SEL_passwordNext = Some next ->
        offsetParent (dom s) input <> None ->
        value (dom s) input = [] ->
        if configured s then
          isTyping s' = true
          /\ emitted s s' = [A_query SEL_account_item; A_query SEL_Passwd;
                             A_query SEL_passwordNext;
                             A_console LOG M_typing_prepare; A_focus input;
                             A_sleep 500%Q]
        else
          emitted s s' = [A_query SEL_account_item; A_query SEL_Passwd;
                          A_query SEL_passwordNext;
                          A_console WARN M_no_password]
          /\ dom s' = dom s /\ isTyping s' = false /\ queue s' = queue s).
Proof.
  cbn zeta. pose proof (tick_not_started w s) as NS. cbn zeta in NS.
  split; [| split].
  - intros Hbegin.
    assert (Hno : forall P : Prop,
               (P -> isTyping s = true
                  \/ querySelector (dom s) SEL_account_item <> None
                  \/ querySelector (dom s) SEL_Passwd = None
                  \/ querySelector (dom s) SEL_passwordNext = None
                  \/ (exists input,
                        querySelector (dom s) SEL_Passwd = Some input
                        /\ (offsetParent (dom s) input = None
                            \/ value (dom s) input <> []))
                  \/ configured s = false) -> ~ P).
    { intros P HP p. destruct (NS (HP p)) as [H1 [H2 H3]].
      destruct Hbegin as [H | [H | H]]; congruence. }
    destruct (isTyping s) eqn:HL.
    { exfalso. apply (Hno True); auto. }
    destruct (configured s) eqn:HC.
    2:{ exfalso. apply (Hno True); auto 10. }
    destruct (querySelector (dom s) SEL_account_item) as [item|] eqn:HA.
    { exfalso. apply (Hno True); [intros _; right; left; discriminate | exact I]. }
    destruct (querySelector (dom s) SEL_Passwd) as [input|] eqn:HP.
    2:{ exfalso. apply (Hno True); auto 10. }
    destruct (querySelector (dom s) SEL_passwordNext) as [next|] eqn:HN.
    2:{ exfalso. apply (Hno True); auto 10. }
    destruct (offsetParent (dom s) input) as [parent|] eqn:HO.
    2:{ exfalso. apply (Hno True); [intros _ | exact I].
        do 4 right. left. exists input. auto. }
    destruct (value (dom s) input) as [|c v] eqn:HV.
    2:{ exfalso. apply (Hno True); [intros _ | exact I].
        do 4 right. left. exists input. split; [reflexivity |].
        right. rewrite HV. discriminate. }
    repeat split. exists input, next. repeat split; congruence.
  - intros HC. apply NS. auto 10.
  - intros input next HL HA HP HN HO HV.
    destruct (configured s) eqn:HC.
    + destruct (tick_started w s HL HA HP HN HO HV HC) as [H1 [H2 _]]. auto.
    + destruct (tick_warns w s HL HA HP HN HO HV HC) as [H1 H2].
      destruct (NS ltac:(auto 10)) as [H3 [H4 _]].
      rewrite HL in H3. auto.
Qed.

(** On the password page with no password stored, the first tick only
    warns. *)
Lemma C5_password_entry_preconditions_witness :
  let s := boot still_world (lit "accounts.google.com") (lit "/v3/signin")
             password_dom None in
  let s' := run_task still_world V15.tryAttemptLogin s in
  isTyping s' = isTyping s /\ queue s' = queue s
  /\ existsb is_entry_action (emitted s s') = false.
Proof.
  cbn zeta.
  apply (proj1 (proj2 (C5_password_entry_preconditions still_world
     (boot still_world (lit "accounts.google.com") (lit "/v3/signin")
        password_dom None)))).
  reflexivity.
Defined.

(** C6: a poll tick that finds an account item while the lock is free
    clicks that item once and returns: nothing else is probed, the lock is
    not taken, and the poll stays in the queue, uncancelled. *)
Theorem C6_account_chooser_click (w : World) (s : State) (item : elem)
    (i : nat) (h : handle) :
  nth_error (queue s) i = Some (P_interval h V15.tryAttemptLogin 1500%Q) ->
  isTyping s = false ->
  querySelector (dom s) SEL_account_item = Some item ->
  exists s',
    fire w i R_timer s = Some s'
    /\ emitted s s' = [A_query SEL_account_item;
                       A_console LOG M_account_list_found; A_click item]
    /\ queue s' = queue s
    /\ nth_error (queue s') i = Some (P_interval h V15.tryAttemptLogin 1500%Q)
    /\ isTyping s' = false.
Proof.
  intros Hq HL HA. unfold fire. rewrite Hq.
  destruct (tick_account w s HL HA) as [H1 [H2 H3]]. cbn zeta in *.
  eexists. split; [reflexivity |]. rewrite H2. auto.
Qed.

Lemma C6_account_chooser_click_witness :
  let s := boot still_world (lit "accounts.google.com") (lit "/v3/signin")
             chooser_dom (Some (lit "hunter2")) in
  exists s',
    fire still_world 0 R_timer s = Some s'
    /\ emitted s s' = [A_query SEL_account_item;
                       A_console LOG M_account_list_found; A_click 3]
    /\ queue s' = queue s
    /\ nth_error (queue s') 0 = Some (P_interval 0 V15.tryAttemptLogin 1500%Q)
    /\ isTyping s' = false.
Proof.
  cbn zeta.
  apply (C6_account_chooser_click still_world
           (boot still_world (lit "accounts.google.com") (lit "/v3/signin")
              chooser_dom (Some (lit "hunter2"))) (item := 3) 0 (h := 0));
    reflexivity.
Defined.

(** ** The interstitial sign-in page *)

Lemma checkBtn_tick_outcome (w : World) (h : handle) (s : State) :
  let s' := run_task w (V15.checkBtn_tick h) s in
  match querySelector (dom s) SEL_form_submit,
        querySelector (dom s) SEL_button_button with
  | Some btn, _ =>
      trace s' = trace s ++ [A_query SEL_form_submit;
                      A_console LOG M_signin_button_found;
                      A_clear_interval h; A_click btn]
      /\ queue s' = filter (fun p => negb (is_interval h p)) (queue s)
  | None, Some btn =>
      trace s' = trace s ++ [A_query SEL_form_submit; A_query SEL_button_button;
                      A_console LOG M_signin_button_found;
                      A_clear_interval h; A_click btn]
      /\ queue s' = filter (fun p => negb (is_interval h p)) (queue s)
  | None, None =>
      trace s' = trace s ++ [A_query SEL_form_submit; A_query SEL_button_button]
      /\ queue s' = queue s
  end
  /\ isTyping s' = isTyping s.
Proof.
  cbn zeta. unfold V15.checkBtn_tick. tick_step.
  destruct (querySelector (dom s) SEL_form_submit) as [btn|]; tick_step.
  - cbn [cancel trace queue set_queue emit].
    split; [split; [repeat rewrite <- app_assoc; reflexivity | reflexivity] | reflexivity].
  - destruct (querySelector (dom s) SEL_button_button) as [btn|]; tick_step.
    + cbn [cancel trace queue set_queue emit].
      split; [split; [repeat rewrite <- app_assoc; reflexivity | reflexivity] | reflexivity].
    + split; [split; [repeat rewrite <- app_assoc; reflexivity | reflexivity] | reflexivity].
Qed.

(** What a step of the event loop ran. *)
Lemma fire_inv (w : World) (i : nat) (r : reply) (s s' : State) :
  fire w i r s = Some s' ->
  exists e,
    nth_error (queue s) i = Some e
    /\ match e, r with
       | P_timeout cb _, R_timer => s' = run_task w cb (dequeue i s)
       | P_interval _ cb _, R_timer => s' = run_task w cb s
       | P_resume k _, R_timer => s' = run_task w k (dequeue i s)
       | P_cookie _ cb, R_cookies cookies error =>
           s' = run_task w (cb cookies error) (dequeue i s)
       | P_xhr _ onload _, R_load resp =>
           s' = run_task w
                  (match onload with Some f => f resp | None => Return end)
                  (dequeue i s)
       | P_xhr _ _ onerror, R_error err =>
           s' = run_task w
                  (match onerror with Some f => f err | None => Return end)
                  (dequeue i s)
       | _, _ => False
       end.
Proof.
  unfold fire. intros H.
  destruct (nth_error (queue s) i) as [e|]; [| discriminate H].
  exists e. split; [reflexivity |].
  destruct e, r; first [discriminate H | injection H as <-; reflexivity].
Qed.

Lemma interstitial_boot (w : World) (host path : jsstring) (d : Dom)
    (stored : option jsstring) :
  includes host (lit "labs.google") = true ->
  includes path (lit "/auth/signin") = true ->
  polling (boot w host path d stored).
Proof.
  intros Hh Hp. unfold boot, V15.main. rewrite Hh, Hp.
  repeat split.
Qed.

Lemma polling_tick (w : World) (s s' : State) (i : nat) (r : reply) :
  polling s -> fire w i r s = Some s' -> polling s' \/ clicked s'.
Proof.
  intros [Hq [Hc Hx]] Hf. apply fire_inv in Hf. destruct Hf as [e [Hn Hf]].
  rewrite Hq in Hn. destruct i as [|i]; [| destruct i; discriminate Hn].
  injection Hn as <-. destruct r; try contradiction. subst s'.
  pose proof (checkBtn_tick_outcome w 0 s) as [H HT]. cbn zeta in H.
  destruct (querySelector (dom s) SEL_form_submit) as [btn|].
  - destruct H as [He Hq']. right. split.
    + rewrite Hq', Hq. reflexivity.
    + exists (trace s ++ [A_query SEL_form_submit;
                          A_console LOG M_signin_button_found]), btn.
      rewrite He, <- app_assoc, !filter_app, Hc, Hx. auto.
  - destruct (querySelector (dom s) SEL_button_button) as [btn|].
    + destruct H as [He Hq']. right. split.
      * rewrite Hq', Hq. reflexivity.
      * exists (trace s ++ [A_query SEL_form_submit; A_query SEL_button_button;
                            A_console LOG M_signin_button_found]), btn.
        rewrite He, <- app_assoc, !filter_app, Hc, Hx. auto.
    + destruct H as [He Hq']. left. split; [congruence |].
      rewrite He, !filter_app, Hc, Hx. auto.
Qed.

Lemma clicked_idle (w : World) (s : State) (i : nat) (r : reply) :
  clicked s -> fire w i r s = None.
Proof.
  intros [Hq _]. unfold fire. rewrite Hq. destruct i; reflexivity.
Qed.

Lemma interstitial_invariant (w : World) (s0 s : State) :
  polling s0 -> reachable w s0 s -> polling s \/ clicked s.
Proof.
  intros H0 Hr. induction Hr as [| s s' Hr IH Hs]; [left; exact H0 |].
  destruct Hs as [i r s s' Hf | d s | answer s | confirmed s].
  - destruct IH as [IH | IH]; [eapply polling_tick; eauto |].
    rewrite (clicked_idle w i r IH) in Hf. discriminate Hf.
  - exact IH.
  - destruct answer; exact IH.
  - destruct confirmed; exact IH.
Qed.

(** C7: on the interstitial sign-in page the poll probes the primary
    selector and, only when that finds nothing, the secondary one.  The
    tick on which either matches clears the interval and then clicks the
    matched control; from then on the queue is empty, so no tick runs
    again, and over the whole page lifetime the interval is cleared at
    most once and one control is clicked at most once. *)
Theorem C7_interstitial_poll (w : World) (host path : jsstring) (d : Dom)
    (stored : option jsstring) (s : State) :
  includes host (lit "labs.google") = true ->
  includes path (lit "/auth/signin") = true ->
  reachable w (boot w host path d stored) s ->
  (polling s \/ (clicked s /\ forall i r, fire w i r s = None))
  /\ (polling s ->
      exists s',
        fire w 0 R_timer s = Some s'
        /\ match querySelector (dom s) SEL_form_submit,
                 querySelector (dom s) SEL_button_button with
           | Some btn, _ =>
               emitted s s' = [A_query SEL_form_submit;
                               A_console LOG M_signin_button_found;
                               A_clear_interval 0; A_click btn]
               /\ clicked s'
           | None, Some btn =>
               emitted s s' = [A_query SEL_form_submit;
                               A_query SEL_button_button;
                               A_console LOG M_signin_button_found;
                               A_clear_interval 0; A_click btn]
               /\ clicked s'
           | None, None =>
               emitted s s' = [A_query SEL_form_submit;
                               A_query SEL_button_button]
               /\ polling s'
           end).
Proof.
  intros Hh Hp Hr.
  pose proof (interstitial_invariant (interstitial_boot w host path d stored Hh Hp) Hr)
    as Inv.
  split.
  - destruct Inv as [Inv | Inv]; [left; exact Inv | right].
    split; [exact Inv | intros i r; apply clicked_idle; exact Inv].
  - intros Hpoll.
    assert (Hf : fire w 0 R_timer s = Some (run_task w (V15.checkBtn_tick 0) s)).
    { unfold fire. destruct Hpoll as [Hq _]. rewrite Hq. reflexivity. }
    exists (run_task w (V15.checkBtn_tick 0) s). split; [exact Hf |].
    pose proof (@polling_tick w s _ 0 R_timer Hpoll Hf) as Hnext.
    pose proof (checkBtn_tick_outcome w 0 s) as [H _]. cbn zeta in H.
    destruct Hpoll as [Hq _].
    assert (Hnot : forall t, queue t = [] -> ~ polling t)
      by (intros t E [E' _]; congruence).
    assert (Hnot' : forall t, queue t = queue s -> ~ clicked t)
      by (intros t E [E' _]; congruence).
    destruct (querySelector (dom s) SEL_form_submit) as [btn|].
    + destruct H as [He Hq']. split; [apply emitted_app; exact He |].
      destruct Hnext as [Hn | Hn]; [| exact Hn].
      exfalso. apply (Hnot _ ltac:(rewrite Hq', Hq; reflexivity) Hn).
    + destruct (querySelector (dom s) SEL_button_button) as [btn|].
      * destruct H as [He Hq']. split; [apply emitted_app; exact He |].
        destruct Hnext as [Hn | Hn]; [| exact Hn].
        exfalso. apply (Hnot _ ltac:(rewrite Hq', Hq; reflexivity) Hn).
      * destruct H as [He Hq']. split; [apply emitted_app; exact He |].
        destruct Hnext as [Hn | Hn]; [exact Hn |].
        exfalso. apply (Hnot' _ Hq' Hn).
Qed.

(** The sign-in page whose button only the secondary selector finds: the
    first tick cancels the poll and clicks it, and nothing can run after. *)
Lemma C7_interstitial_poll_witness :
  let s0 := boot still_world (lit "labs.google") (lit "/fx/api/auth/signin")
              signin_dom None in
  let s1 := run_task still_world (V15.checkBtn_tick 0) s0 in
  fire still_world 0 R_timer s0 = Some s1
  /\ emitted s0 s1 = [A_query SEL_form_submit; A_query SEL_button_button;
                      A_console LOG M_signin_button_found;
                      A_clear_interval 0; A_click 4]
  /\ clicked s1 /\ forall i r, fire still_world i r s1 = None.
Proof.
  cbn zeta.
  set (s0 := boot still_world (lit "labs.google") (lit "/fx/api/auth/signin")
               signin_dom None).
  assert (Hf : fire still_world 0 R_timer s0
               = Some (run_task still_world (V15.checkBtn_tick 0) s0))
    by reflexivity.
  assert (Hr : reachable still_world s0
                 (run_task still_world (V15.checkBtn_tick 0) s0))
    by (eapply reach_step; [apply reach_start | eapply step_fire; exact Hf]).
  destruct (@C7_interstitial_poll still_world (lit "labs.google")
              (lit "/fx/api/auth/signin") signin_dom None _
              eq_refl eq_refl Hr) as [[Hpoll | [Hc Hidle]] _].
  - destruct Hpoll as [Hq _]. discriminate Hq.
  - split; [exact Hf | split; [reflexivity | split; [exact Hc | exact Hidle]]].
Defined.

(** ** The typing lock *)





Lemma Forall_remove_nth (A : Type) (P : A -> Prop) (l : list A) :
  forall i, Forall P l -> Forall P (remove_nth i l).
Proof.
  induction l as [|x l IH]; intros i H; destruct i; cbn; auto;
    inversion H; subst; auto.
Qed.


Lemma Forall_filter (A : Type) (P : A -> Prop) (f : A -> bool) (l : list A) :
  Forall P l -> Forall P (filter f l).
Proof.
  induction 1 as [|x l Hx Hl IH]; cbn; [constructor |].
  destruct (f x); auto.
Qed.









(** ** The async function and the event loop agree *)





(** ** Typing and the lock over a page lifetime *)







(** ** Sample runs *)

(** A business page whose session cookie holds tok_XYZ and whose backend
    answers with success: one request carrying the token, then the
    success line with the account's address. *)
Example end_to_end_sync :
  let s0 := boot sync_world (lit "labs.google") (lit "/fx/tools/flow")
              empty_dom None in
  let token := {| cookie_name := SESSION_COOKIE;
                  cookie_value := lit "tok_XYZ" |} in
  let answer := {| status := 200; responseText := lit "success body" |} in
  option_map (fun s => (posts (trace s), emitted s0 s))
    (fire_all sync_world
       [ (0, R_timer); (1, R_cookies (Some [token]) None); (1, R_load answer) ]
       s0)
  = Some ([sync_request (lit "tok_XYZ")],
          [A_cookie_list SESSION_COOKIE;
           A_console LOG M_token_found;
           A_xhr (sync_request (lit "tok_XYZ"));
           A_console LOG (M_sync_ok (Some (JStr (lit "a@b.com"))))])
  /\ req_data (sync_request (lit "tok_XYZ"))
     = JObj [ (lit "st", JStr (lit "tok_XYZ")) ].
Proof. split; vm_compute; reflexivity. Qed.

(** The password page with hunter2 stored: one tick and nine resumptions
    type the password, click the next control and leave the unlock timer;
    when that fires the lock is free again. *)
Example full_password_entry :
  let s0 := boot still_world (lit "accounts.google.com") (lit "/v3/signin")
              password_dom (Some (lit "hunter2")) in
  let s1 := drive still_world 9 (run_task still_world V15.tryAttemptLogin s0) in
  (value (dom s1) 1, filter is_click (trace s1), isTyping s1,
   List.length (queue s1), in_flight s1)
  = (lit "hunter2", [A_click 2], true, 2, 0)
  /\ option_map isTyping (fire still_world 1 R_timer s1) = Some false.
Proof. split; vm_compute; reflexivity. Qed.

(** ** Release 1.2 *)

(** The cookie-store callback of release 1.2 decides as the one of release
    1.5 does: an error reported gives one error line and no request; no
    error and a first cookie give exactly one call of [sendTokenToServer]
    on its value; otherwise one plain line and no request. *)
Theorem V12_cookie_response_decides_sync (w : World) (s : State)
    (cookies : option (list cookie)) (error : option jsstring) :
  let s' := run_task w (V12.syncToken_callback cookies error) s in
  match reported error, cookies with
  | Some e, _ =>
      emitted s s' = [A_console ERROR (M_cookie_error e)]
      /\ queue s' = queue s
  | None, Some (c :: _) =>
      s' = run_task w (V12.sendTokenToServer (cookie_value c)) s
      /\ emitted s s' = [A_console LOG M_token_found;
                         A_xhr (sync_request (cookie_value c))]
      /\ queue s' = queue s ++ [P_xhr (sync_request (cookie_value c))
                                  (Some V12.onload) (Some V12.onerror)]
  | None, _ =>
      emitted s s' = [A_console LOG M_no_session_token]
      /\ queue s' = queue s
  end.
Proof.
  unfold V12.syncToken_callback.
  destruct (reported error) as [e|]; cbn.
  - split; [read_trace | reflexivity].
  - destruct cookies as [[|c rest]|]; cbn.
    + split; [read_trace | reflexivity].
    + split; [reflexivity | split; [read_trace | reflexivity]].
    + split; [read_trace | reflexivity].
Qed.

Lemma emitted_one (s : State) (a : action) : emitted s (emit a s) = [a].
Proof. read_trace. Qed.

Lemma emitted_one_inv (s : State) (a b : action) :
  emitted s (emit a s) = [b] -> a = b.
Proof. rewrite emitted_one. congruence. Qed.

(** Two readings of the same answer agree. *)
Ltac merge_readings :=
  repeat match goal with
  | H : Some ?a = Some ?b |- _ =>
      assert (a = b) by congruence; clear H; subst
  | H1 : ?x = Some ?a, H2 : ?x = Some ?b |- _ =>
      tryif constr_eq a b then fail
      else (assert (a = b) by congruence; subst; clear H2)
  end.

Ltac settle_answer :=
  merge_readings;
  first [ reflexivity | congruence
        | cbn [get_prop truthy] in *;
          first [ reflexivity | congruence | discriminate ] ].

(** The branches of [onload] of release 1.2, by what the answer holds. *)
Lemma V12_onload_cases (w : World) (s : State) (resp : response) :
  let s' := run_task w (V12.onload resp) s in
  let line lvl m := emitted s s' = [A_console lvl m] in
  queue s' = queue s
  /\ ((status resp <> 200%Z
       /\ line ERROR (M_http_failed (status resp) (responseText resp)))
      \/ (status resp = 200%Z
          /\ ((parse w (responseText resp) = None /\ line ERROR M_parse_failed)
              \/ exists data,
                   parse w (responseText resp) = Some data
                   /\ ((data = JNull /\ line ERROR M_parse_failed)
                       \/ exists success,
                            get_prop (Some data) (lit "success") = Some success
                            /\ ((truthy success = false
                                 /\ line ERROR (M_server_error data))
                                \/ (truthy success = true
                                    /\ exists inner,
                                         get_prop (Some data) (lit "data")
                                         = Some inner
                                         /\ ((get_prop inner (lit "email") = None
                                              /\ line ERROR M_parse_failed)
                                             \/ exists email act,
                                                  get_prop inner (lit "email")
                                                  = Some email
                                                  /\ get_prop inner (lit "action")
                                                     = Some act
                                                  /\ line LOG
                                                       (M_sync_ok_12 email act)))))))).
Proof.
  cbn zeta. unfold V12.onload.
  destruct (Z.eqb_spec (status resp) 200) as [Hs | Hs];
    cbn [run_task perform]; [| rewrite emitted_one; auto].
  destruct (parse w (responseText resp)) as [data|];
    cbn [run_task perform]; [| rewrite emitted_one; auto 6].
  destruct (get_prop (Some data) (lit "success")) as [success|] eqn:Hg;
    cbn [run_task perform].
  2:{ rewrite emitted_one. split; [reflexivity |]. right. split; [exact Hs |].
      right. exists data. split; [reflexivity |]. left.
      destruct data; try discriminate Hg. auto. }
  destruct (truthy success) eqn:Ht; cbn [run_task perform].
  2:{ rewrite emitted_one. split; [reflexivity |]. right. split; [exact Hs |].
      right. exists data. split; [reflexivity |]. right. exists success.
      split; [exact Hg | auto]. }
  destruct (get_prop (Some data) (lit "data")) as [inner|] eqn:Hd;
    cbn [run_task perform].
  2:{ destruct data; cbn in Hg, Hd; discriminate. }
  split; [destruct (get_prop inner (lit "email")),
                   (get_prop inner (lit "action")); reflexivity |].
  right. split; [exact Hs |]. right. exists data. split; [reflexivity |].
  right. exists success. split; [exact Hg |]. right. split; [exact Ht |].
  exists inner. split; [exact Hd |].
  destruct inner as [[]|]; cbn [get_prop run_task perform]; rewrite emitted_one;
    first [ left; split; reflexivity | right; eauto ].
Qed.



(** ** Release 1.5: the answer to a sync *)

Lemma V15_onload_cases (w : World) (s : State) (resp : response) :
  let s' := run_task w (V15.onload resp) s in
  queue s' = queue s
  /\ ((exists inner email,
         accepted w resp inner
         /\ get_prop inner (lit "email") = Some email
         /\ emitted s s' = [A_console LOG (M_sync_ok email)])
      \/ ((forall inner,
             accepted w resp inner -> get_prop inner (lit "email") = None)
          /\ emitted s s' = [])).
Proof.
  cbn zeta. unfold V15.onload, accepted.
  pose proof (emitted_refl s) as R.
  destruct (Z.eqb_spec (status resp) 200) as [Hs | Hs];
    cbn [run_task perform].
  2:{ split; [reflexivity | right]. split; [| exact R].
      intros inner [Hs' _]. congruence. }
  destruct (parse w (responseText resp)) as [data|] eqn:Hp;
    cbn [run_task perform].
  2:{ split; [reflexivity | right]. split; [| exact R].
      intros inner [_ [d [v [E _]]]]. congruence. }
  destruct (get_prop (Some data) (lit "success")) as [success|] eqn:Hg;
    cbn [run_task perform].
  2:{ split; [reflexivity | right]. split; [| exact R].
      intros inner [_ [d [v [E1 [E2 _]]]]]. settle_answer. }
  destruct (truthy success) eqn:Ht; cbn [run_task perform].
  2:{ split; [reflexivity | right]. split; [| exact R].
      intros inner [_ [d [v [E1 [E2 [E3 _]]]]]]. settle_answer. }
  destruct (get_prop (Some data) (lit "data")) as [inner|] eqn:Hd;
    cbn [run_task perform].
  2:{ destruct data; cbn in Hg, Hd; discriminate. }
  destruct (get_prop inner (lit "email")) as [email|] eqn:He;
    cbn [run_task perform].
  - split; [reflexivity | left]. exists inner, email.
    split; [split; [exact Hs | exists data, success; auto] |].
    split; [exact He | apply emitted_one].
  - split; [reflexivity | right]. split; [| exact R].
    intros inner' [_ [d [v [E1 [E2 [E3 E4]]]]]]. settle_answer.
Qed.



(** ** Permissions *)

Lemma perform_within (allow : permission) (net : bool) (w : World)
    (X : Type) (e : eff X) (s : State) :
  allow X e = true ->
  Forall (entry_within allow net) (queue s) ->
  Forall (entry_within allow net) (queue (snd (perform w e s)))
  /\ (exists l, trace (snd (perform w e s)) = trace s ++ l
                /\ forallb (permitted allow net) l = true)
  /\ ((forall b, allow _ (SetIsTyping b) = false) ->
      isTyping (snd (perform w e s)) = isTyping s).
Proof.
  intros Ha HQ.
  destruct e; cbn [perform snd fst queue trace isTyping emit interact set_dom
                   set_isTyping drawn cancel set_queue];
    (split; [first [exact HQ | apply Forall_filter; exact HQ] |]);
    (split; [first [ exists []; rewrite app_nil_r; split; reflexivity
                   | eexists; split; [reflexivity |]; cbn; rewrite Ha;
                     reflexivity ] |]);
    intros Hlock; try reflexivity.
  rewrite Hlock in Ha. discriminate Ha.
Qed.

Lemma run_task_within (allow : permission) (net : bool) (w : World)
    (p : prog) :
  within allow net p ->
  forall s,
    Forall (entry_within allow net) (queue s) ->
    Forall (entry_within allow net) (queue (run_task w p s))
    /\ (exists l, trace (run_task w p s) = trace s ++ l
                  /\ forallb (permitted allow net) l = true)
    /\ ((forall b, allow _ (SetIsTyping b) = false) ->
        isTyping (run_task w p s) = isTyping s).
Proof.
  induction 1 as [| X e k Ha Hk IH | ms k Hk IH | cb ms k Hcb _ Hk IH
                 | cb ms k Hcb _ Hk IH | name cb k Hn Hcb _ Hk IH
                 | req onload onerror k Hn Hl Hl' He He' Hk IH];
    intros s HQ.
  - split; [exact HQ | split; [| reflexivity]].
    exists []. rewrite app_nil_r. split; reflexivity.
  - cbn [run_task]. destruct (@perform_within allow net w X e s Ha HQ)
      as [HQ1 [[l1 [Ht1 Hp1]] HL1]].
    destruct (perform w e s) as [x s1]. cbn [snd] in *.
    destruct (IH x s1 HQ1) as [HQ2 [[l2 [Ht2 Hp2]] HL2]].
    split; [exact HQ2 | split].
    + exists (l1 ++ l2). rewrite Ht2, Ht1, app_assoc, forallb_app, Hp1, Hp2.
      split; reflexivity.
    + intros Hlock. rewrite (HL2 Hlock). apply HL1. exact Hlock.
  - cbn [run_task queue trace isTyping enqueue set_queue emit].
    split; [| split; [| reflexivity]].
    + apply Forall_app. split; [exact HQ | repeat constructor; exact Hk].
    + exists [A_sleep ms]. split; reflexivity.
  - cbn [run_task].
    destruct (IH (enqueue (P_timeout cb ms) (emit (A_set_timeout ms) s)))
      as [HQ2 [[l2 [Ht2 Hp2]] HL2]].
    { cbn. apply Forall_app. split; [exact HQ | repeat constructor; exact Hcb]. }
    split; [exact HQ2 | split].
    + exists (A_set_timeout ms :: l2). rewrite Ht2. cbn.
      rewrite <- app_assoc. split; [reflexivity | exact Hp2].
    + intros Hlock. rewrite (HL2 Hlock). reflexivity.
  - cbn [run_task].
    destruct (IH (next_handle s)
                (enqueue (P_interval (next_handle s) (cb (next_handle s)) ms)
                   (emit (A_set_interval (next_handle s) ms) (fresh_handle s))))
      as [HQ2 [[l2 [Ht2 Hp2]] HL2]].
    { cbn. apply Forall_app. split; [exact HQ | repeat constructor; apply Hcb]. }
    split; [exact HQ2 | split].
    + exists (A_set_interval (next_handle s) ms :: l2). rewrite Ht2. cbn.
      rewrite <- app_assoc. split; [reflexivity | exact Hp2].
    + intros Hlock. rewrite (HL2 Hlock). reflexivity.
  - cbn [run_task].
    destruct (IH (enqueue (P_cookie name cb) (emit (A_cookie_list name) s)))
      as [HQ2 [[l2 [Ht2 Hp2]] HL2]].
    { cbn. apply Forall_app. split; [exact HQ |].
      repeat constructor; [exact Hn | exact Hcb]. }
    split; [exact HQ2 | split].
    + exists (A_cookie_list name :: l2). rewrite Ht2.
      cbn [trace enqueue set_queue emit forallb permitted].
      rewrite <- app_assoc, Hp2, Hn. split; reflexivity.
    + intros Hlock. rewrite (HL2 Hlock). reflexivity.
  - cbn [run_task].
    destruct (IH (enqueue (P_xhr req onload onerror) (emit (A_xhr req) s)))
      as [HQ2 [[l2 [Ht2 Hp2]] HL2]].
    { cbn. apply Forall_app. split; [exact HQ |].
      repeat constructor; [exact Hn | exact Hl | exact He]. }
    split; [exact HQ2 | split].
    + exists (A_xhr req :: l2). rewrite Ht2.
      cbn [trace enqueue set_queue emit forallb permitted].
      rewrite <- app_assoc, Hp2, Hn. split; reflexivity.
    + intros Hlock. rewrite (HL2 Hlock). reflexivity.
Qed.

Lemma fire_within (allow : permission) (net : bool) (w : World)
    (i : nat) (r : reply) (s s' : State) :
  disciplined allow net s ->
  fire w i r s = Some s' ->
  disciplined allow net s'
  /\ ((forall b, allow _ (SetIsTyping b) = false) -> isTyping s' = isTyping s).
Proof.
  intros [HQ HT] Hf. apply fire_inv in Hf. destruct Hf as [e [Hn Hf]].
  assert (He : entry_within allow net e)
    by (eapply Forall_forall; [exact HQ | eapply nth_error_In; eauto]).
  pose proof (Forall_remove_nth i HQ) as HQd.
  assert (Run : forall p s0,
             within allow net p ->
             Forall (entry_within allow net) (queue s0) ->
             trace s0 = trace s -> isTyping s0 = isTyping s ->
             disciplined allow net (run_task w p s0)
             /\ ((forall b, allow _ (SetIsTyping b) = false) ->
                 isTyping (run_task w p s0) = isTyping s)).
  { intros p s0 Hp HQ0 Ht0 Hl0.
    destruct (@run_task_within allow net w p Hp s0 HQ0) as [HQ1 [[l [Ht1 Hp1]] HL1]].
    split; [split; [exact HQ1 |] | intros Hlock; rewrite (HL1 Hlock); exact Hl0].
    rewrite Ht1, Ht0, forallb_app, HT, Hp1. reflexivity. }
  destruct e as [cb ms | h cb ms | k ms | name cb | req onload onerror];
    destruct r; try contradiction; subst s'; cbn [entry_within] in He.
  - apply Run; auto.
  - apply Run; auto.
  - apply Run; auto.
  - apply Run; auto. apply He.
  - destruct He as [_ [Hl _]]. destruct onload as [f|];
      apply Run; auto; first [eapply Hl; reflexivity | constructor].
  - destruct He as [_ [_ Hl]]. destruct onerror as [f|];
      apply Run; auto; first [eapply Hl; reflexivity | constructor].
Qed.

Lemma reachable_within (allow : permission) (net : bool) (w : World)
    (s0 s : State) :
  disciplined allow net s0 ->
  reachable w s0 s ->
  disciplined allow net s
  /\ ((forall b, allow _ (SetIsTyping b) = false) -> isTyping s = isTyping s0).
Proof.
  intros H0 Hr. induction Hr as [| s s' Hr [IH IHL] Hs]; [auto |].
  destruct Hs as [i r s s' Hf | d s | answer s | confirmed s].
  - destruct (@fire_within allow net w i r s s' IH Hf) as [Hd HL].
    split; [exact Hd | intros Hlock; rewrite (HL Hlock); auto].
  - auto.
  - destruct answer; auto.
  - destruct confirmed; auto.
Qed.

Lemma boot_within (allow : permission) (net : bool) (w : World) (p : prog)
    (d : Dom) (stored : option jsstring) :
  within allow net p ->
  disciplined allow net (run_task w p (init d stored))
  /\ ((forall b, allow _ (SetIsTyping b) = false) ->
      isTyping (run_task w p (init d stored)) = false).
Proof.
  intros Hp.
  destruct (@run_task_within allow net w p Hp (init d stored) (Forall_nil _))
    as [HQ [[l [Ht Hl]] HL]].
  split; [split; [exact HQ | rewrite Ht; exact Hl] | exact HL].
Qed.

Lemma permitted_excludes (allow : permission) (net : bool)
    (f : action -> bool) (tr : list action) :
  (forall a, permitted allow net a = true -> f a = false) ->
  forallb (permitted allow net) tr = true ->
  existsb f tr = false.
Proof.
  intros Hf. induction tr as [|a tr IH]; [reflexivity |]. cbn.
  rewrite andb_true_iff. intros [Ha Htr]. now rewrite (Hf a Ha), IH.
Qed.

(** Builds the derivation that a script program keeps to a permission. *)
Ltac keep_within :=
  repeat first
    [ apply within_return
    | apply within_await
    | apply within_vis; [reflexivity | intros ?]
    | apply within_timeout
    | apply within_interval; intros ?
    | apply within_cookie; [reflexivity | intros ? ? |]
    | apply within_xhr; [reflexivity | intros ? [= <-] ? | intros ? [= <-] ? |]
    | match goal with
      | |- within _ _ (match ?x with _ => _ end) => destruct x
      | |- within _ _ (if ?b then _ else _) => destruct b
      end ].

Lemma within_seq (allow : permission) (net : bool) (p q : prog) :
  within allow net p -> within allow net q -> within allow net (seq p q).
Proof.
  intros Hp Hq.
  induction Hp as [| X e k Ha Hk IH | ms k Hk IH | cb ms k Hcb _ Hk IH
                  | cb ms k Hcb _ Hk IH | name cb k Hn Hcb _ Hk IH
                  | req onload onerror k Hn Hl _ He _ Hk IH]; cbn [seq].
  - exact Hq.
  - apply within_vis; [exact Ha | exact IH].
  - apply within_await; exact IH.
  - apply within_timeout; [exact Hcb | exact IH].
  - apply within_interval; [exact Hcb | exact IH].
  - apply within_cookie; [exact Hn | exact Hcb | exact IH].
  - apply within_xhr; [exact Hn | exact Hl | exact He | exact IH].
Qed.

Lemma typeChars_within (element : elem) (text : jsstring) :
  within login_calls false (V15.typeChars element text).
Proof.
  induction text as [|char rest IH]; cbn [V15.typeChars]; keep_within.
  exact IH.
Qed.

Lemma tryAttemptLogin_within : within login_calls false V15.tryAttemptLogin.
Proof.
  unfold V15.tryAttemptLogin, V15.enterPassword, V15.typeStringSimulate,
    V15.unlock.
  keep_within.
  apply within_seq; [apply within_seq; [apply typeChars_within |] |];
    keep_within.
Qed.

Lemma handleAccountsGoogle_within :
  within login_calls false V15.handleAccountsGoogle.
Proof.
  unfold V15.handleAccountsGoogle.
  apply within_vis; [reflexivity | intros _].
  apply within_interval; intros h;
    [apply tryAttemptLogin_within | apply within_return].
Qed.

Lemma handleLabsAuthPage_within :
  within signin_calls false V15.handleLabsAuthPage.
Proof.
  unfold V15.handleLabsAuthPage, V15.checkBtn_tick. keep_within.
Qed.

Lemma handleLabsGoogle_within : within sync_calls true V15.handleLabsGoogle.
Proof.
  unfold V15.handleLabsGoogle, V15.syncToken, V15.syncToken_callback,
    V15.sendTokenToServer, V15.onload.
  keep_within; cbn [seq]; keep_within.
Qed.

Lemma main12_within : within sync_calls true V12.main.
Proof.
  unfold V12.main, V12.syncToken, V12.syncToken_callback,
    V12.sendTokenToServer, V12.onload, V12.onerror.
  keep_within; cbn [seq]; keep_within.
Qed.

Lemma no_remote_no_posts (tr : list action) :
  existsb is_remote tr = false -> posts tr = [].
Proof.
  induction tr as [|a tr IH]; [reflexivity |]. cbn [existsb].
  rewrite orb_false_iff. intros [Ha Htr]. destruct a; cbn in *;
    try discriminate; auto.
Qed.

(** On a page of the identity provider the script never reads the cookie
    store, never sends a request and never reloads, over the whole page
    lifetime: every action is a probe, a log line, a click, a focus, a
    write or an event on the page, or a timer. *)
Theorem login_page_stays_local (w : World) (host path : jsstring) (d : Dom)
    (stored : option jsstring) (s : State) :
  includes host (lit "labs.google") = false ->
  includes host (lit "accounts.google.com") = true ->
  reachable w (boot w host path d stored) s ->
  forallb (permitted login_calls false) (trace s) = true
  /\ existsb is_remote (trace s) = false
  /\ posts (trace s) = []
  /\ Forall (entry_within login_calls false) (queue s).
Proof.
  intros Hh Ha Hr. unfold boot, V15.main in Hr. rewrite Hh, Ha in Hr.
  destruct (boot_within w d stored handleAccountsGoogle_within) as [H0 _].
  destruct (reachable_within H0 Hr) as [[HQ HT] _].
  assert (Hrem : existsb is_remote (trace s) = false).
  { eapply permitted_excludes; [| exact HT].
    intros a; destruct a; cbn; congruence. }
  split; [exact HT | split; [exact Hrem | split; [| exact HQ]]].
  apply no_remote_no_posts. exact Hrem.
Qed.

(** The password page after its first tick has started an entry. *)
Lemma login_page_stays_local_witness :
  let s0 := boot still_world (lit "accounts.google.com") (lit "/v3/signin")
              password_dom (Some (lit "hunter2")) in
  posts (trace (run_task still_world V15.tryAttemptLogin s0)) = [].
Proof.
  cbn zeta.
  set (s0 := boot still_world (lit "accounts.google.com") (lit "/v3/signin")
               password_dom (Some (lit "hunter2"))).
  assert (Hf : fire still_world 0 R_timer s0
               = Some (run_task still_world V15.tryAttemptLogin s0))
    by reflexivity.
  apply (@login_page_stays_local still_world (lit "accounts.google.com")
           (lit "/v3/signin") password_dom (Some (lit "hunter2")) _
           eq_refl eq_refl).
  eapply reach_step; [apply reach_start | eapply step_fire; exact Hf].
Defined.

(** On the interstitial sign-in page the script only probes the document,
    logs, clears its interval and clicks: it never takes the typing lock,
    never focuses, writes or sends an event to a field, and never reaches
    the cookie store or the network. *)
Theorem signin_page_only_probes_and_clicks (w : World) (host path : jsstring)
    (d : Dom) (stored : option jsstring) (s : State) :
  includes host (lit "labs.google") = true ->
  includes path (lit "/auth/signin") = true ->
  reachable w (boot w host path d stored) s ->
  isTyping s = false
  /\ forallb (permitted signin_calls false) (trace s) = true
  /\ existsb is_field_action (trace s) = false
  /\ existsb is_remote (trace s) = false.
Proof.
  intros Hh Hp Hr. unfold boot, V15.main in Hr. rewrite Hh, Hp in Hr.
  destruct (boot_within w d stored handleLabsAuthPage_within) as [H0 HL0].
  destruct (reachable_within H0 Hr) as [[HQ HT] HL].
  split; [rewrite HL, HL0; reflexivity |].
  split; [exact HT | split];
    (eapply permitted_excludes; [| exact HT]);
    intros a; destruct a; cbn; congruence.
Qed.

Lemma signin_page_only_probes_and_clicks_witness :
  let s0 := boot still_world (lit "labs.google") (lit "/fx/api/auth/signin")
              signin_dom None in
  let s1 := run_task still_world (V15.checkBtn_tick 0) s0 in
  isTyping s1 = false /\ existsb is_field_action (trace s1) = false.
Proof.
  cbn zeta.
  set (s0 := boot still_world (lit "labs.google") (lit "/fx/api/auth/signin")
               signin_dom None).
  assert (Hf : fire still_world 0 R_timer s0
               = Some (run_task still_world (V15.checkBtn_tick 0) s0))
    by reflexivity.
  destruct (@signin_page_only_probes_and_clicks still_world
              (lit "labs.google") (lit "/fx/api/auth/signin") signin_dom None
              _ eq_refl eq_refl
              (reach_step (reach_start _ s0) (step_fire _ _ _ _ Hf)))
    as [H1 [_ [H2 _]]].
  split; [exact H1 | exact H2].
Defined.

(** On a business page of release 1.5 the script never probes or touches
    the document and never takes the typing lock: all it does is log, set
    its two timers, read the cookie store, send, parse and reload. *)
Theorem business_page_hands_off (w : World) (host path : jsstring)
    (d : Dom) (stored : option jsstring) (s : State) :
  includes host (lit "labs.google") = true ->
  includes path (lit "/auth/signin") = false ->
  reachable w (boot w host path d stored) s ->
  isTyping s = false
  /\ forallb (permitted sync_calls true) (trace s) = true
  /\ existsb is_dom_action (trace s) = false.
Proof.
  intros Hh Hp Hr. unfold boot, V15.main in Hr. rewrite Hh, Hp in Hr.
  destruct (boot_within w d stored handleLabsGoogle_within) as [H0 HL0].
  destruct (reachable_within H0 Hr) as [[HQ HT] HL].
  split; [rewrite HL, HL0; reflexivity |].
  split; [exact HT |].
  eapply permitted_excludes; [| exact HT].
  intros a; destruct a; cbn; congruence.
Qed.

Lemma business_page_hands_off_witness :
  let s0 := boot sync_world (lit "labs.google") (lit "/fx/tools/flow")
              chooser_dom None in
  isTyping s0 = false /\ existsb is_dom_action (trace s0) = false.
Proof.
  cbn zeta.
  destruct (@business_page_hands_off sync_world (lit "labs.google")
              (lit "/fx/tools/flow") chooser_dom None _ eq_refl eq_refl
              (reach_start _ _)) as [H1 [_ H2]].
  split; [exact H1 | exact H2].
Defined.

(** Release 1.2, on whatever page it runs, never probes or touches the
    document either. *)
Theorem release_12_hands_off (w : World) (d : Dom) (stored : option jsstring)
    (s : State) :
  reachable w (boot12 w d stored) s ->
  isTyping s = false
  /\ forallb (permitted sync_calls true) (trace s) = true
  /\ existsb is_dom_action (trace s) = false.
Proof.
  intros Hr. unfold boot12 in Hr.
  destruct (boot_within w d stored main12_within) as [H0 HL0].
  destruct (reachable_within H0 Hr) as [[HQ HT] HL].
  split; [rewrite HL, HL0; reflexivity |].
  split; [exact HT |].
  eapply permitted_excludes; [| exact HT].
  intros a; destruct a; cbn; congruence.
Qed.

Lemma release_12_hands_off_witness :
  let s0 := boot12 sync_world chooser_dom None in
  isTyping s0 = false /\ existsb is_dom_action (trace s0) = false.
Proof.
  cbn zeta.
  destruct (@release_12_hands_off sync_world chooser_dom None _
              (reach_start _ _)) as [H1 [_ H2]].
  split; [exact H1 | exact H2].
Defined.

(** ** One sync per page load *)

Lemma run_task_trace (w : World) (p : prog) :
  forall s, exists l, trace (run_task w p s) = trace s ++ l.
Proof.
  induction p as [| X e k IH | ms k IH | cb _ ms k IH | cb _ ms k IH
                 | name cb _ k IH | req onload onerror k IH]; intros s;
    cbn [run_task].
  - exists []. now rewrite app_nil_r.
  - destruct (perform_trace w e s) as [l1 H1].
    destruct (perform w e s) as [x s1]. cbn in H1.
    destruct (IH x s1) as [l2 H2]. exists (l1 ++ l2).
    now rewrite H2, H1, app_assoc.
  - eexists. reflexivity.
  - destruct (IH (enqueue (P_timeout cb ms) (emit (A_set_timeout ms) s)))
      as [l H]. rewrite H. cbn. rewrite <- app_assoc. eauto.
  - destruct (IH (next_handle s)
                (enqueue (P_interval (next_handle s) (cb (next_handle s)) ms)
                   (emit (A_set_interval (next_handle s) ms) (fresh_handle s))))
      as [l H]. rewrite H. cbn. rewrite <- app_assoc. eauto.
  - destruct (IH (enqueue (P_cookie name cb) (emit (A_cookie_list name) s)))
      as [l H]. rewrite H. cbn. rewrite <- app_assoc. eauto.
  - destruct (IH (enqueue (P_xhr req onload onerror) (emit (A_xhr req) s)))
      as [l H]. rewrite H. cbn. rewrite <- app_assoc. eauto.
Qed.

Lemma emitted_trace (w : World) (p : prog) (s : State) :
  trace (run_task w p s) = trace s ++ emitted s (run_task w p s).
Proof.
  destruct (run_task_trace w p s) as [l H].
  now rewrite (@emitted_app s (run_task w p s) l H).
Qed.

Lemma console_only (l : list action) :
  forallb is_console l = true ->
  filter is_sync_action l = [] /\ filter is_reload l = [].
Proof.
  induction l as [|a l IH]; [auto |]. cbn [forallb].
  rewrite andb_true_iff. intros [Ha Hl]. destruct (IH Hl) as [H1 H2].
  destruct a; try discriminate Ha. cbn. auto.
Qed.

Lemma posts_sync_actions (tr : list action) :
  posts (filter is_sync_action tr) = posts tr.
Proof.
  induction tr as [|a tr IH]; [reflexivity |].
  destruct a; cbn; try exact IH. now rewrite IH.
Qed.

Section SyncOnce.

Variable sync : prog.
Variable callback : option (list cookie) -> option jsstring -> prog.
Variable onload : option (response -> prog).
Variable onerror : option (jsstring -> prog).

Hypothesis sync_asks : forall w s,
  run_task w sync s
  = enqueue (P_cookie SESSION_COOKIE callback)
      (emit (A_cookie_list SESSION_COOKIE) s).

Hypothesis callback_sends_once : forall w cookies error s,
  (exists st,
     run_task w (callback cookies error) s
     = enqueue (P_xhr (sync_request st) onload onerror)
         (emit (A_xhr (sync_request st))
            (emit (A_console LOG M_token_found) s)))
  \/ (exists lvl m,
        run_task w (callback cookies error) s = emit (A_console lvl m) s).

Hypothesis onload_logs : forall w r s,
  let s' := run_task w
              (match onload with Some f => f r | None => Return end) s in
  queue s' = queue s
  /\ exists l, trace s' = trace s ++ l /\ forallb is_console l = true.

Hypothesis onerror_logs : forall w e s,
  let s' := run_task w
              (match onerror with Some f => f e | None => Return end) s in
  queue s' = queue s
  /\ exists l, trace s' = trace s ++ l /\ forallb is_console l = true.

Let phase := sync_phase sync callback onload onerror.

Lemma phase_fire (w : World) (i : nat) (r : reply) (s s' : State)
    (stage : sync_stage) (rw : bool) :
  phase stage rw s ->
  fire w i r s = Some s' ->
  exists stage' rw', phase stage' rw' s'.
Proof.
  intros [Hq [Hs Hr]] Hf. apply fire_inv in Hf.
  destruct Hf as [e [Hn Hf]]. unfold phase.
  rewrite Hq in Hn.
  destruct stage as [| | st | sent], rw; cbn in Hn;
    repeat (destruct i as [|i]; cbn in Hn; try discriminate Hn);
    injection Hn as <-; destruct r; try contradiction; subst s'.
  all: try rewrite sync_asks.
  all: try (unfold reload_callback; cbn [run_task perform]).
  all: try match goal with
    | |- context [run_task ?w0 (callback ?c ?e) ?t] =>
        destruct (callback_sends_once w0 c e t) as [[st' E] | [lvl [m E]]];
        rewrite E
    end.
  all: try match goal with
    | |- context [run_task ?w0 match onload with _ => _ end ?t] =>
        destruct (onload_logs w0 r t) as [E [l [El Ec]]];
        destruct (console_only l Ec) as [Ec1 Ec2];
        exists (SYNC_over (Some st))
    | |- context [run_task ?w0 match onerror with _ => _ end ?t] =>
        destruct (onerror_logs w0 err t) as [E [l [El Ec]]];
        destruct (console_only l Ec) as [Ec1 Ec2];
        exists (SYNC_over (Some st))
    | |- context [enqueue (P_cookie _ _) _] => exists SYNC_asked
    | |- context [enqueue (P_xhr (sync_request ?x) _ _) _] =>
        exists (SYNC_sent x)
    | |- context [emit A_reload _] =>
        match type of Hs with _ = sync_log ?g => exists g end
    | |- context [emit (A_console _ _) (dequeue _ _)] =>
        exists (SYNC_over None)
    end.
  all: first
    [ exists true; unfold sync_phase;
     solve [ split;
             [ rewrite ?E; cbn [queue enqueue emit dequeue set_queue];
               rewrite ?Hq; reflexivity
             | rewrite ?El; cbn [trace enqueue emit dequeue set_queue];
               rewrite ?filter_app, ?Hs, ?Hr, ?Ec1, ?Ec2, ?app_nil_r;
               split; reflexivity ] ]
    | exists false; unfold sync_phase;
     solve [ split;
             [ rewrite ?E; cbn [queue enqueue emit dequeue set_queue];
               rewrite ?Hq; reflexivity
             | rewrite ?El; cbn [trace enqueue emit dequeue set_queue];
               rewrite ?filter_app, ?Hs, ?Hr, ?Ec1, ?Ec2, ?app_nil_r;
               split; reflexivity ] ] ].
Qed.

Lemma phase_reachable (w : World) (s0 s : State)
    (stage : sync_stage) (rw : bool) :
  phase stage rw s0 ->
  reachable w s0 s ->
  exists stage' rw', phase stage' rw' s.
Proof.
  intros H0 Hr. induction Hr as [| s s' Hr [g [b IH]] Hs]; [eauto |].
  destruct Hs as [i r s s' Hf | d s | answer s | confirmed s].
  - eapply phase_fire; eauto.
  - eauto.
  - destruct answer; eauto.
  - destruct confirmed; eauto.
Qed.

End SyncOnce.

Lemma phase_bounds (sync : prog)
    (callback : option (list cookie) -> option jsstring -> prog)
    (onload : option (response -> prog)) (onerror : option (jsstring -> prog))
    (stage : sync_stage) (rw : bool) (s : State) :
  sync_phase sync callback onload onerror stage rw s ->
  List.length (filter is_sync_action (trace s)) <= 2
  /\ List.length (posts (trace s)) <= 1
  /\ (forall req, In req (posts (trace s)) -> exists st, req = sync_request st)
  /\ List.length (filter is_reload (trace s)) <= 1.
Proof.
  intros [_ [Hs Hr]]. rewrite <- posts_sync_actions, Hs, Hr.
  destruct stage as [| | st | [st|]], rw; cbn; repeat split; try lia;
    intros req H; destruct H as [<- | []]; eauto.
Qed.

Lemma V12_answer_table (w : World) (s : State) (r : response) :
  queue (run_task w (V12.onload r) s) = queue s
  /\ exists lvl m, emitted s (run_task w (V12.onload r) s) = [A_console lvl m].
Proof.
  destruct (V12_onload_cases w s r) as [HQ H]. cbn zeta in H.
  split; [exact HQ |].
  destruct H as
    [[_ E] | [_ [[_ E] | [data [_ [[_ E] | [success [_
       [[_ E] | [_ [inner [_ [[_ E] | [email [act [_ [_ E]]]]]]]]]]]]]]]]];
    eauto.
Qed.

Lemma V15_callback_sends_once (w : World) (cookies : option (list cookie))
    (error : option jsstring) (s : State) :
  (exists st,
     run_task w (V15.syncToken_callback cookies error) s
     = enqueue (P_xhr (sync_request st) (Some V15.onload) None)
         (emit (A_xhr (sync_request st))
            (emit (A_console LOG M_token_found) s)))
  \/ (exists lvl m,
        run_task w (V15.syncToken_callback cookies error) s
        = emit (A_console lvl m) s).
Proof.
  unfold V15.syncToken_callback.
  destruct (reported error); [right; cbn; eauto |].
  destruct cookies as [[|c rest]|]; cbn; eauto.
Qed.

Lemma V12_callback_sends_once (w : World) (cookies : option (list cookie))
    (error : option jsstring) (s : State) :
  (exists st,
     run_task w (V12.syncToken_callback cookies error) s
     = enqueue (P_xhr (sync_request st) (Some V12.onload) (Some V12.onerror))
         (emit (A_xhr (sync_request st))
            (emit (A_console LOG M_token_found) s)))
  \/ (exists lvl m,
        run_task w (V12.syncToken_callback cookies error) s
        = emit (A_console lvl m) s).
Proof.
  unfold V12.syncToken_callback.
  destruct (reported error); [right; cbn; eauto |].
  destruct cookies as [[|c rest]|]; cbn; eauto.
Qed.

Lemma V15_onload_logs (w : World) (r : response) (s : State) :
  let s' := run_task w (V15.onload r) s in
  queue s' = queue s
  /\ exists l, trace s' = trace s ++ l /\ forallb is_console l = true.
Proof.
  cbn zeta. destruct (V15_onload_cases w s r) as [HQ H]. cbn zeta in H.
  split; [exact HQ |]. rewrite (emitted_trace w (V15.onload r) s).
  eexists. split; [reflexivity |].
  destruct H as [[inner [email [_ [_ E]]]] | [_ E]]; rewrite E; reflexivity.
Qed.

Lemma V12_onload_logs (w : World) (r : response) (s : State) :
  let s' := run_task w (V12.onload r) s in
  queue s' = queue s
  /\ exists l, trace s' = trace s ++ l /\ forallb is_console l = true.
Proof.
  cbn zeta.
  destruct (V12_answer_table w s r) as [HQ [lvl [m E]]].
  split; [exact HQ |]. rewrite (emitted_trace w (V12.onload r) s).
  eexists. split; [reflexivity |]. rewrite E. reflexivity.
Qed.

(** Over the lifetime of a business page of release 1.5 the sync runs at
    most once: the cookie store is asked at most once, at most one request
    is sent, to the sync endpoint, and the page reloads at most once.
    What waits in the queue is, in this order, the sync timer, the reload
    timer, and the cookie request or the sync request. *)
Theorem business_page_syncs_once (w : World) (host path : jsstring) (d : Dom)
    (stored : option jsstring) (s : State) :
  includes host (lit "labs.google") = true ->
  includes path (lit "/auth/signin") = false ->
  reachable w (boot w host path d stored) s ->
  (exists stage reload_waiting,
     sync_phase V15.syncToken V15.syncToken_callback (Some V15.onload) None
       stage reload_waiting s)
  /\ List.length (filter is_sync_action (trace s)) <= 2
  /\ List.length (posts (trace s)) <= 1
  /\ (forall req, In req (posts (trace s)) -> exists st, req = sync_request st)
  /\ List.length (filter is_reload (trace s)) <= 1.
Proof.
  intros Hh Hp Hr. unfold boot, V15.main in Hr. rewrite Hh, Hp in Hr.
  assert (H0 : sync_phase V15.syncToken V15.syncToken_callback
                 (Some V15.onload) None SYNC_waiting true
                 (run_task w V15.handleLabsGoogle (init d stored)))
    by (repeat split).
  destruct (@phase_reachable V15.syncToken V15.syncToken_callback
              (Some V15.onload) None
              (fun _ _ => eq_refl) V15_callback_sends_once V15_onload_logs
              (fun _ _ t => conj eq_refl
                 (ex_intro _ [] (conj (eq_sym (app_nil_r (trace t))) eq_refl)))
              w _ s SYNC_waiting true H0 Hr) as [stage [rw Hph]].
  split; [eauto |]. exact (phase_bounds Hph).
Qed.

(** The business page once its sync timer has fired. *)
Lemma business_page_syncs_once_witness :
  let s0 := boot sync_world (lit "labs.google") (lit "/fx/tools/flow")
              empty_dom None in
  let s1 := run_task sync_world V15.syncToken (dequeue 0 s0) in
  filter is_sync_action (trace s1) = [A_cookie_list SESSION_COOKIE]
  /\ List.length (posts (trace s1)) <= 1.
Proof.
  cbn zeta.
  set (s0 := boot sync_world (lit "labs.google") (lit "/fx/tools/flow")
               empty_dom None).
  assert (Hf : fire sync_world 0 R_timer s0
               = Some (run_task sync_world V15.syncToken (dequeue 0 s0)))
    by reflexivity.
  destruct (@business_page_syncs_once sync_world (lit "labs.google")
              (lit "/fx/tools/flow") empty_dom None _ eq_refl eq_refl
              (reach_step (reach_start _ s0) (step_fire _ _ _ _ Hf)))
    as [_ [_ [H _]]].
  split; [reflexivity | exact H].
Defined.

(** Release 1.2 keeps the same discipline on the page it runs on: one read
    of the cookie store, one request and one reload at most. *)
Theorem release_12_syncs_once (w : World) (d : Dom) (stored : option jsstring)
    (s : State) :
  reachable w (boot12 w d stored) s ->
  (exists stage reload_waiting,
     sync_phase V12.syncToken V12.syncToken_callback (Some V12.onload)
       (Some V12.onerror) stage reload_waiting s)
  /\ List.length (filter is_sync_action (trace s)) <= 2
  /\ List.length (posts (trace s)) <= 1
  /\ (forall req, In req (posts (trace s)) -> exists st, req = sync_request st)
  /\ List.length (filter is_reload (trace s)) <= 1.
Proof.
  intros Hr. unfold boot12 in Hr.
  assert (H0 : sync_phase V12.syncToken V12.syncToken_callback
                 (Some V12.onload) (Some V12.onerror) SYNC_waiting true
                 (run_task w V12.main (init d stored)))
    by (repeat split).
  destruct (@phase_reachable V12.syncToken V12.syncToken_callback
              (Some V12.onload) (Some V12.onerror)
              (fun _ _ => eq_refl) V12_callback_sends_once V12_onload_logs
              (fun _ e t => conj eq_refl
                 (ex_intro _ [A_console ERROR (M_network_error e)]
                    (conj eq_refl eq_refl)))
              w _ s SYNC_waiting true H0 Hr) as [stage [rw Hph]].
  split; [eauto |]. exact (phase_bounds Hph).
Qed.

Lemma release_12_syncs_once_witness :
  let s0 := boot12 sync_world empty_dom None in
  let s1 := run_task sync_world V12.syncToken (dequeue 0 s0) in
  filter is_sync_action (trace s1) = [A_cookie_list SESSION_COOKIE]
  /\ List.length (posts (trace s1)) <= 1.
Proof.
  cbn zeta.
  set (s0 := boot12 sync_world empty_dom None).
  assert (Hf : fire sync_world 0 R_timer s0
               = Some (run_task sync_world V12.syncToken (dequeue 0 s0)))
    by reflexivity.
  destruct (@release_12_syncs_once sync_world empty_dom None _
              (reach_step (reach_start _ s0) (step_fire _ _ _ _ Hf)))
    as [_ [_ [H _]]].
  split; [reflexivity | exact H].
Defined.

(** ** A password entry from start to end *)

Lemma typeChars_draws (w : World) (element : elem) (text : jsstring) :
  forall s,
    draws (run_through w (V15.typeChars element text) s)
    = draws s + List.length text.
Proof.
  induction text as [|char rest IH]; intros s.
  - cbn. lia.
  - cbn [V15.typeChars run_through perform]. rewrite IH. cbn. lia.
Qed.



(** The whole trace of a password entry. *)
Lemma enterPassword_trace (w : World) (input next : elem) (pw : jsstring)
    (s : State) :
  let s' := run_through w (V15.enterPassword input next pw) s in
  exists tr r btn sT,
    keystrokes input pw tr
    /\ (0 <= r)%Q /\ (r < 1)%Q
    /\ emitted s s'
       = [A_console LOG M_typing_prepare; A_focus input; A_sleep 500%Q]
         ++ tr
         ++ [A_dispatch input V15.change_event; A_console LOG M_typing_done;
             A_sleep (800 + r * 500)%Q; A_query_of next SEL_button;
             A_click btn; A_set_timeout 5000%Q]
    /\ sT = run_through w (V15.typeStringSimulate input pw)
              (interact w (A_sleep 500%Q)
                 (interact w (A_focus input)
                    (emit (A_console LOG M_typing_prepare) s)))
    /\ btn = match querySelectorOf
                     (dom (interact w (A_sleep (800 + r * 500)%Q)
                             (drawn (emit (A_console LOG M_typing_done) sT))))
                     next SEL_button with
             | Some b => b
             | None => next
             end
    /\ dom s' = dom (interact w (A_click btn)
                       (emit (A_query_of next SEL_button)
                          (interact w (A_sleep (800 + r * 500)%Q)
                             (drawn (emit (A_console LOG M_typing_done) sT))))).
Proof.
  cbn zeta. unfold V15.enterPassword. cbn [run_through perform].
  rewrite run_through_seq.
  set (sA := interact w (A_sleep 500%Q)
               (interact w (A_focus input)
                  (emit (A_console LOG M_typing_prepare) s))).
  destruct (typeStringSimulate_through w input pw sA)
    as [_ [_ [tr [Hem [Hk _]]]]].
  destruct (run_through_trace w (V15.typeStringSimulate input pw) sA)
    as [l Hl].
  rewrite (@emitted_app sA _ l Hl) in Hem. subst l.
  set (sT := run_through w (V15.typeStringSimulate input pw) sA) in *.
  cbn [run_through perform].
  exists tr, (random w (draws sT)). eexists. exists sT.
  destruct (random_unit w (draws sT)) as [Hlo Hhi].
  split; [exact Hk | split; [exact Hlo | split; [exact Hhi |]]].
  split; [| split; [reflexivity | split; reflexivity]].
  apply emitted_app.
  cbn [trace draws emit interact set_dom enqueue set_queue drawn].
  rewrite Hl. unfold sA. cbn [trace emit interact set_dom].
  cbn [app]. repeat rewrite <- app_assoc. cbn [app]. reflexivity.
Qed.


Lemma keystrokes_total (element : elem) (text : jsstring) (tr : list action) :
  keystrokes element text tr ->
  forall tail,
  exists total : Z,
    (total_delay (tr ++ tail) == inject_Z total + total_delay tail)%Q
    /\ (50 * Z.of_nat (List.length text) <= total
        <= 150 * Z.of_nat (List.length text))%Z.
Proof.
  induction 1 as [| delay before char rest tr Hd Hk IH]; intros tail.
  - exists 0%Z. split; [cbn; ring | cbn; lia].
  - destruct (IH tail) as [total [Ht Hb]]. exists (delay + total)%Z. split.
    + cbn [app total_delay]. rewrite Ht, inject_Z_plus. ring.
    + cbn [List.length]. lia.
Qed.

(** From its first log line to the unlock timer a password entry sleeps
    500, then once per character, then 800 to 1300: for a password of N
    code units at least 1300 + 50 N and less than 1800 + 150 N in all. *)
Theorem password_entry_duration (w : World) (input next : elem)
    (pw : jsstring) (s : State) :
  let s' := run_through w (V15.enterPassword input next pw) s in
  let N := Z.of_nat (List.length pw) in
  (inject_Z (1300 + 50 * N) <= total_delay (emitted s s'))%Q
  /\ (total_delay (emitted s s') < inject_Z (1800 + 150 * N))%Q.
Proof.
  cbn zeta.
  destruct (enterPassword_trace w input next pw s)
    as [tr [r [btn [sT [Hk [Hlo [Hhi [Hem _]]]]]]]].
  cbn zeta in Hem. rewrite Hem. cbn [app total_delay].
  destruct (keystrokes_total Hk
              [A_dispatch input V15.change_event; A_console LOG M_typing_done;
               A_sleep (800 + r * 500)%Q; A_query_of next SEL_button;
               A_click btn; A_set_timeout 5000%Q]) as [total [Ht [Hb1 Hb2]]].
  rewrite Ht. cbn [total_delay].
  rewrite Zle_Qle in Hb1, Hb2. rewrite inject_Z_mult in Hb1, Hb2.
  rewrite !inject_Z_plus, !inject_Z_mult.
  change (inject_Z 50) with 50%Q in *. change (inject_Z 150) with 150%Q in *.
  change (inject_Z 1300) with 1300%Q. change (inject_Z 1800) with 1800%Q.
  split; lra.
Qed.






(** ** The warning, the menu and the loop *)

Lemma tick_no_warning (w : World) (s : State) :
  (isTyping s = true
   \/ querySelector (dom s) SEL_account_item <> None
   \/ querySelector (dom s) SEL_Passwd = None
   \/ querySelector (dom s) SEL_passwordNext = None
   \/ (exists input, querySelector (dom s) SEL_Passwd = Some input
                     /\ (offsetParent (dom s) input = None
                         \/ value (dom s) input <> []))
   \/ configured s = true) ->
  existsb is_no_password_warning (emitted s (run_task w V15.tryAttemptLogin s))
  = false.
Proof.
  intros H. unfold V15.tryAttemptLogin. tick_step.
  destruct (isTyping s) eqn:HL; tick_step.
  { rewrite emitted_refl. reflexivity. }
  destruct (querySelector (dom s) SEL_account_item) as [item|] eqn:HA;
    tick_step.
  { tick_trace. reflexivity. }
  destruct (querySelector (dom s) SEL_Passwd) as [input|] eqn:HP;
    [| tick_step; tick_trace; reflexivity].
  destruct (querySelector (dom s) SEL_passwordNext) as [next|] eqn:HN;
    tick_step; [| tick_trace; reflexivity].
  destruct (offsetParent (dom s) input) as [parent|] eqn:HO;
    tick_step; [| tick_trace; reflexivity].
  destruct (value (dom s) input) as [|c v] eqn:HV; cbn [nonempty];
    tick_step; [| tick_trace; reflexivity].
  destruct (gm_password s) as [[|c pw]|] eqn:HG; cbn [nonempty negb];
    tick_step;
    try (unfold V15.enterPassword; tick_step; tick_trace; reflexivity);
    exfalso; unfold configured in H; rewrite HG in H; cbn in H;
    destruct H as [H | [H | [H | [H | [[input' [E H] ] | H]]]]];
    try discriminate; try congruence;
    (assert (input' = input) by congruence); subst input';
    destruct H; congruence.
Qed.

(** A tick prints the missing-password warning exactly when the lock is
    free, the prompt is ready and no password is configured: a hidden or
    filled field, a missing control or a listed account gives no warning
    even with no password stored. *)
Theorem warning_only_on_ready_prompt (w : World) (s : State) :
  let s' := run_task w V15.tryAttemptLogin s in
  existsb is_no_password_warning (emitted s s') = true
  <-> (isTyping s = false /\ configured s = false
       /\ exists input next, prompt_ready (dom s) input next).
Proof.
  cbn zeta. pose proof (tick_no_warning w s) as NW. split.
  - intros Hw.
    assert (Hno : forall P : Prop,
               (P -> isTyping s = true
                  \/ querySelector (dom s) SEL_account_item <> None
                  \/ querySelector (dom s) SEL_Passwd = None
                  \/ querySelector (dom s) SEL_passwordNext = None
                  \/ (exists input,
                        querySelector (dom s) SEL_Passwd = Some input
                        /\ (offsetParent (dom s) input = None
                            \/ value (dom s) input <> []))
                  \/ configured s = true) -> ~ P)
      by (intros P HP p; rewrite (NW (HP p)) in Hw; discriminate Hw).
    assert (HL : isTyping s = false).
    { destruct (isTyping s) eqn:E; [| reflexivity].
      exfalso. apply (Hno True); auto. }
    assert (HC : configured s = false).
    { destruct (configured s) eqn:E; [| reflexivity].
      exfalso. apply (Hno True); auto 10. }
    assert (HA : querySelector (dom s) SEL_account_item = None).
    { destruct (querySelector (dom s) SEL_account_item) eqn:E; [| reflexivity].
      exfalso. apply (Hno True); [intros _; right; left; discriminate | exact I]. }
    destruct (querySelector (dom s) SEL_Passwd) as [input|] eqn:HP.
    2:{ exfalso. apply (Hno True); auto 10. }
    destruct (querySelector (dom s) SEL_passwordNext) as [next|] eqn:HN.
    2:{ exfalso. apply (Hno True); auto 10. }
    split; [exact HL | split; [exact HC |]]. exists input, next.
    unfold prompt_ready. rewrite HP, HN.
    destruct (offsetParent (dom s) input) as [parent|] eqn:HO.
    2:{ exfalso. apply (Hno True); [intros _ | exact I].
        do 4 right. left. exists input. auto. }
    destruct (value (dom s) input) as [|c v] eqn:HV.
    2:{ exfalso. apply (Hno True); [intros _ | exact I].
        do 4 right. left. exists input. split; [reflexivity |].
        right. rewrite HV. discriminate. }
    repeat split; auto. discriminate.
  - intros [HL [HC [input [next [HA [HP [HN [HO HV]]]]]]]].
    destruct (tick_warns w s HL HA HP HN HO HV HC) as [E _].
    cbn zeta in E. rewrite E. reflexivity.
Qed.

(** The password page with nothing stored warns on its first tick. *)
Lemma warning_only_on_ready_prompt_witness :
  let s := boot still_world (lit "accounts.google.com") (lit "/v3/signin")
             password_dom None in
  existsb is_no_password_warning
    (emitted s (run_task still_world V15.tryAttemptLogin s)) = true.
Proof.
  cbn zeta.
  apply (warning_only_on_ready_prompt still_world
           (boot still_world (lit "accounts.google.com") (lit "/v3/signin")
              password_dom None)).
  split; [reflexivity | split; [reflexivity |]].
  exists 1, 2. repeat split. discriminate.
Defined.



Lemma typeChars_app (w : World) (element : elem) (a b : jsstring) :
  forall s,
    run_through w (V15.typeChars element (a ++ b)) s
    = run_through w (V15.typeChars element b)
        (run_through w (V15.typeChars element a) s).
Proof.
  induction a as [|char rest IH]; intros s; [reflexivity |].
  cbn [app V15.typeChars run_through perform]. apply IH.
Qed.

(** Typing a string in one call or in two calls on its two halves leaves
    the same value in a field whose listeners leave it alone, with the
    same number of input events; the two calls dispatch a change event
    each, the one call a single one.  The loop itself composes exactly:
    typing the first half and then the second is typing the whole. *)
Theorem typing_in_two_calls (w : World) (element : elem) (a b : jsstring)
    (s : State) :
  listeners_keep_value w element ->
  let one := run_through w (V15.typeStringSimulate element (a ++ b)) s in
  let half := run_through w (V15.typeStringSimulate element a) s in
  let two := run_through w (V15.typeStringSimulate element b) half in
  value (dom one) element = value (dom two) element
  /\ dispatched EV_input (emitted s one) = dispatched EV_input (emitted s two)
  /\ dispatched EV_change (emitted s one) = 1
  /\ dispatched EV_change (emitted s two) = 2
  /\ run_through w (V15.typeChars element (a ++ b)) s
     = run_through w (V15.typeChars element b)
         (run_through w (V15.typeChars element a) s).
Proof.
  intros Hquiet. cbn zeta.
  destruct (typeStringSimulate_through w element (a ++ b) s)
    as [_ [_ [tr1 [E1 [K1 V1]]]]].
  destruct (typeStringSimulate_through w element a s)
    as [_ [_ [tra [Ea [Ka Va]]]]].
  set (half := run_through w (V15.typeStringSimulate element a) s) in *.
  destruct (typeStringSimulate_through w element b half)
    as [_ [_ [trb [Eb [Kb Vb]]]]].
  destruct (V1 Hquiet) as [V1' _]. destruct (Va Hquiet) as [Va' _].
  destruct (Vb Hquiet) as [Vb' _].
  destruct (keystrokes_input K1) as [I1 C1].
  destruct (keystrokes_input Ka) as [Ia Ca].
  destruct (keystrokes_input Kb) as [Ib Cb].
  assert (E2 : emitted s (run_through w (V15.typeStringSimulate element b) half)
               = emitted s half
                 ++ emitted half
                      (run_through w (V15.typeStringSimulate element b) half)).
  { destruct (run_through_trace w (V15.typeStringSimulate element a) s)
      as [la Hla].
    destruct (run_through_trace w (V15.typeStringSimulate element b) half)
      as [lb Hlb]. fold half in Hla.
    rewrite (@emitted_app s half la Hla), (@emitted_app half _ lb Hlb).
    apply emitted_app. now rewrite Hlb, Hla, app_assoc. }
  split; [| split; [| split; [| split]]].
  - rewrite V1', Vb', Va'. now rewrite app_assoc.
  - rewrite E2, E1, Ea, Eb, !dispatched_app, I1, Ia, Ib, length_app. cbn. lia.
  - rewrite E1, dispatched_app, C1. reflexivity.
  - rewrite E2, Ea, Eb, !dispatched_app, Ca, Cb. reflexivity.
  - apply typeChars_app.
Qed.

Lemma typing_in_two_calls_witness :
  let s := init password_dom None in
  let one := run_through still_world
               (V15.typeStringSimulate 1 (lit "abc" ++ lit "123")) s in
  let two := run_through still_world (V15.typeStringSimulate 1 (lit "123"))
               (run_through still_world
                  (V15.typeStringSimulate 1 (lit "abc")) s) in
  value (dom one) 1 = value (dom two) 1
  /\ dispatched EV_change (emitted s two) = 2.
Proof.
  cbn zeta.
  destruct (@typing_in_two_calls still_world 1 (lit "abc") (lit "123")
              (init password_dom None)
              (fun history a d _ => eq_refl)) as [H1 [_ [_ [H2 _]]]].
  split; [exact H1 | exact H2].
Defined.

(** ** The login poll *)

Lemma perform_appends (allow : permission) (w : World) (X : Type)
    (e : eff X) (s : State) :
  (forall h, allow _ (ClearInterval h) = false) ->
  allow X e = true ->
  queue (snd (perform w e s)) = queue s.
Proof.
  intros Hc Ha. destruct e; try reflexivity.
  rewrite Hc in Ha. discriminate Ha.
Qed.

Lemma run_task_appends (allow : permission) (net : bool) (w : World)
    (p : prog) :
  (forall h, allow _ (ClearInterval h) = false) ->
  within allow net p ->
  forall s, exists added, queue (run_task w p s) = queue s ++ added.
Proof.
  intros Hc.
  induction 1 as [| X e k Ha Hk IH | ms k Hk IH | cb ms k Hcb _ Hk IH
                 | cb ms k Hcb _ Hk IH | name cb k Hn Hcb _ Hk IH
                 | req onload onerror k Hn Hl Hl' He He' Hk IH];
    intros s; cbn [run_task].
  - exists []. now rewrite app_nil_r.
  - pose proof (@perform_appends allow w X e s Hc Ha) as HQ.
    destruct (perform w e s) as [x s1]. cbn [snd] in HQ.
    destruct (IH x s1) as [added H]. exists added. now rewrite H, HQ.
  - eexists. reflexivity.
  - destruct (IH (enqueue (P_timeout cb ms) (emit (A_set_timeout ms) s)))
      as [added H]. rewrite H. cbn. rewrite <- app_assoc. eauto.
  - destruct (IH (next_handle s)
                (enqueue (P_interval (next_handle s) (cb (next_handle s)) ms)
                   (emit (A_set_interval (next_handle s) ms) (fresh_handle s))))
      as [added H]. rewrite H. cbn. rewrite <- app_assoc. eauto.
  - destruct (IH (enqueue (P_cookie name cb) (emit (A_cookie_list name) s)))
      as [added H]. rewrite H. cbn. rewrite <- app_assoc. eauto.
  - destruct (IH (enqueue (P_xhr req onload onerror) (emit (A_xhr req) s)))
      as [added H]. rewrite H. cbn. rewrite <- app_assoc. eauto.
Qed.

(** What a step of the event loop ran, for a queue that keeps to a
    permission: a permitted program, on the state itself when the entry
    is an interval and on the state without the entry when it is not. *)
Lemma fire_runs (allow : permission) (net : bool) (w : World)
    (i : nat) (r : reply) (s s' : State) :
  Forall (entry_within allow net) (queue s) ->
  fire w i r s = Some s' ->
  exists p s0,
    within allow net p /\ s' = run_task w p s0
    /\ ((s0 = s /\ exists h cb ms, nth_error (queue s) i = Some (P_interval h cb ms))
        \/ (s0 = dequeue i s
            /\ forall h cb ms,
                 nth_error (queue s) i <> Some (P_interval h cb ms))).
Proof.
  intros HQ Hf. apply fire_inv in Hf. destruct Hf as [e [Hn Hf]].
  assert (He : entry_within allow net e)
    by (eapply Forall_forall; [exact HQ | eapply nth_error_In; eauto]).
  rewrite Hn.
  destruct e as [cb ms | h cb ms | k ms | name cb | req onload onerror];
    destruct r; try contradiction; subst s'; cbn [entry_within] in He.
  - exists cb, (dequeue i s). split; [exact He | split; [reflexivity | right]].
    split; [reflexivity | discriminate].
  - exists cb, s. split; [exact He | split; [reflexivity | left]]. eauto.
  - exists k, (dequeue i s). split; [exact He | split; [reflexivity | right]].
    split; [reflexivity | discriminate].
  - exists (cb cookies error), (dequeue i s).
    split; [apply He | split; [reflexivity | right]].
    split; [reflexivity | discriminate].
  - destruct He as [_ [Hl _]].
    exists (match onload with Some f => f r | None => Return end), (dequeue i s).
    split; [destruct onload; [eapply Hl; reflexivity | constructor] |].
    split; [reflexivity | right]. split; [reflexivity | discriminate].
  - destruct He as [_ [_ Hl]].
    exists (match onerror with Some f => f err | None => Return end),
      (dequeue i s).
    split; [destruct onerror; [eapply Hl; reflexivity | constructor] |].
    split; [reflexivity | right]. split; [reflexivity | discriminate].
Qed.

Lemma poll_stays (w : World) (s0 s : State) :
  disciplined login_calls false s0 ->
  (exists rest, queue s0 = P_interval 0 V15.tryAttemptLogin 1500%Q :: rest) ->
  reachable w s0 s ->
  disciplined login_calls false s
  /\ exists rest, queue s = P_interval 0 V15.tryAttemptLogin 1500%Q :: rest.
Proof.
  intros H0 Hhead Hr.
  induction Hr as [| s s' Hr [IH [rest IHq]] Hs]; [auto |].
  destruct Hs as [i r s s' Hf | d s | answer s | confirmed s].
  - destruct (@fire_within login_calls false w i r s s' IH Hf) as [Hd _].
    split; [exact Hd |]. destruct IH as [HQ _].
    destruct (@fire_runs login_calls false w i r s s' HQ Hf)
      as [p [t [Hp [-> [[-> _] | [-> Hni]]]]]].
    + destruct (@run_task_appends login_calls false w p (fun _ => eq_refl) Hp s)
        as [added' Ha']. rewrite Ha', IHq. cbn. eauto.
    + destruct (@run_task_appends login_calls false w p (fun _ => eq_refl) Hp
                  (dequeue i s)) as [added' Ha'].
      rewrite Ha'. cbn [queue dequeue set_queue]. rewrite IHq.
      destruct i as [|i].
      * exfalso. apply (Hni 0 V15.tryAttemptLogin 1500%Q).
        rewrite IHq. reflexivity.
      * cbn. eauto.
  - split; [exact IH | eauto].
  - destruct answer; (split; [exact IH | eauto]).
  - destruct confirmed; (split; [exact IH | eauto]).
Qed.

(** On a page of the identity provider the poll started at load is never
    cancelled: over the whole page lifetime it stays first in the queue,
    no interval is ever cleared, and a further tick can always fire, also
    after a password entry has ended. *)
Theorem login_poll_never_stops (w : World) (host path : jsstring) (d : Dom)
    (stored : option jsstring) (s : State) :
  includes host (lit "labs.google") = false ->
  includes host (lit "accounts.google.com") = true ->
  reachable w (boot w host path d stored) s ->
  (exists rest, queue s = P_interval 0 V15.tryAttemptLogin 1500%Q :: rest)
  /\ existsb is_clear (trace s) = false
  /\ fire w 0 R_timer s = Some (run_task w V15.tryAttemptLogin s).
Proof.
  intros Hh Ha Hr. unfold boot, V15.main in Hr. rewrite Hh, Ha in Hr.
  destruct (boot_within w d stored handleAccountsGoogle_within) as [H0 _].
  destruct (@poll_stays w _ s H0 (ex_intro _ [] eq_refl) Hr)
    as [[HQ HT] [rest Hq]].
  split; [eauto | split].
  - eapply permitted_excludes; [| exact HT].
    intros a; destruct a; cbn; congruence.
  - unfold fire. rewrite Hq. reflexivity.
Qed.

(** The password page after its first tick has started an entry. *)
Lemma login_poll_never_stops_witness :
  let s0 := boot still_world (lit "accounts.google.com") (lit "/v3/signin")
              password_dom (Some (lit "pw")) in
  let s1 := run_task still_world V15.tryAttemptLogin s0 in
  existsb is_clear (trace s1) = false
  /\ fire still_world 0 R_timer s1
     = Some (run_task still_world V15.tryAttemptLogin s1).
Proof.
  cbn zeta.
  set (s0 := boot still_world (lit "accounts.google.com") (lit "/v3/signin")
               password_dom (Some (lit "pw"))).
  assert (Hf : fire still_world 0 R_timer s0
               = Some (run_task still_world V15.tryAttemptLogin s0))
    by reflexivity.
  destruct (@login_poll_never_stops still_world (lit "accounts.google.com")
              (lit "/v3/signin") password_dom (Some (lit "pw")) _
              eq_refl eq_refl
              (reach_step (reach_start _ s0) (step_fire _ _ _ _ Hf)))
    as [_ [H1 H2]].
  split; [exact H1 | exact H2].
Defined.

(** ** Pages of neither domain *)

(** On a host that contains neither domain the route dispatch chooses no
    handler, and the script stays inert for the whole page lifetime:
    nothing is ever scheduled, no action is ever taken and the lock is
    never held; only the menu commands can change the stored password. *)
Theorem script_is_inert_elsewhere (w : World) (host path : jsstring)
    (d : Dom) (stored : option jsstring) (s : State) :
  includes host (lit "labs.google") = false ->
  includes host (lit "accounts.google.com") = false ->
  reachable w (boot w host path d stored) s ->
  queue s = [] /\ trace s = [] /\ isTyping s = false
  /\ forall i r, fire w i r s = None.
Proof.
  intros Hh Ha Hr. unfold boot, V15.main in Hr. rewrite Hh, Ha in Hr.
  cbn [run_task] in Hr.
  assert (Inv : queue s = [] /\ trace s = [] /\ isTyping s = false).
  { induction Hr as [| s s' Hr IH Hs]; [repeat split |].
    destruct IH as [HQ [HT HL]].
    destruct Hs as [i r s s' Hf | d' s | answer s | confirmed s].
    - unfold fire in Hf. rewrite HQ in Hf. destruct i; discriminate Hf.
    - auto.
    - destruct answer; auto.
    - destruct confirmed; auto. }
  destruct Inv as [HQ [HT HL]].
  repeat split; try assumption.
  intros i r. unfold fire. rewrite HQ. destruct i; reflexivity.
Qed.

Lemma script_is_inert_elsewhere_witness :
  let s := V15.menu_set_password (Some (lit "hunter2"))
             (boot still_world (lit "example.com") (lit "/") chooser_dom None) in
  queue s = [] /\ trace s = [] /\ isTyping s = false.
Proof.
  cbn zeta.
  destruct (@script_is_inert_elsewhere still_world (lit "example.com")
              (lit "/") chooser_dom None _ eq_refl eq_refl
              (reach_step (reach_start _ _)
                 (step_menu_set still_world (Some (lit "hunter2")) _)))
    as [H1 [H2 [H3 _]]].
  auto.
Defined.
